(** * The image-generation request flow of falai-app

    A shallow embedding of [generateImage] (services/generate-image.ts) and of
    the parts of [ImageGenerator.vue] that prepare a request and record its
    results, with the properties the specification states about them.

    Conventions of the embedding.
    - JavaScript values that the code receives as [any] are values of [JsVal];
      numbers are the integers. Where the code declares a type (a
      [status: number], a [message: string], a [path: string]) the embedding
      uses it.
    - [Record<string, any>] parameter bags are finite maps from strings.
    - [localStorage] is a record of the three slots the application uses,
      holding what the application writes to them.
    - An [async] function returns a settled promise: [Resolved] with a value or
      [Rejected] with the value thrown. [generateImage] calls itself; the
      embedding bounds the depth of that recursion by a [fuel] and returns
      [None] when it runs out.
    - [ensureValidNumImages] writes into the object it is given; every caller
      passes it a fresh object literal, so it is a function from bags to bags.
    - The outbound call, [JSON.parse], the persistence service and the key
      manager are collaborators, taken as parameters (type classes).
    - Everything observable the flow does is appended to a trace of events. *)

From Stdlib Require Import ZArith List String Ascii Bool Lia.
From stdpp Require Import base option list strings gmap.

Open Scope string_scope.
Set Warnings "-register-all".

(** ** JavaScript values and the string operations the code calls *)
Module Js.

Inductive JsVal : Type :=
| JUndefined
| JNull
| JBool (b : bool)
| JNum (n : Z)
| JStr (s : string)
| JArr (items : list JsVal)
| JObj (fields : list (string * JsVal)).

(** ToBoolean. *)
Definition truthy (v : JsVal) : bool :=
  match v with
  | JUndefined | JNull => false
  | JBool b => b
  | JNum n => negb (n =? 0)%Z
  | JStr s => negb (s =? "")
  | JArr _ | JObj _ => true
  end.

Fixpoint assoc (k : string) (fs : list (string * JsVal)) : JsVal :=
  match fs with
  | [] => JUndefined
  | (k', v) :: rest => if k' =? k then v else assoc k rest
  end.

(** [v.k] for a receiver that is neither [undefined] nor [null], and a
    property name that only plain objects carry ("detail", "path"). *)
Definition field (k : string) (v : JsVal) : JsVal :=
  match v with
  | JObj fs => assoc k fs
  | _ => JUndefined
  end.

Definition nullish (v : JsVal) : bool :=
  match v with
  | JUndefined | JNull => true
  | _ => false
  end.

(** [String.prototype.includes]. *)
Fixpoint includes (hay needle : string) : bool :=
  String.prefix needle hay ||
  match hay with
  | EmptyString => false
  | String _ rest => includes rest needle
  end.

Definition is_string (s : string) (v : JsVal) : bool :=
  match v with
  | JStr s' => s' =? s
  | _ => false
  end.

(** [v.includes(s)] on a value of unknown shape: a string searches for a
    substring, an array for an element; anything else has no such method and the
    call throws a TypeError ([None]). *)
Definition includes_any (v : JsVal) (s : string) : option bool :=
  match v with
  | JStr hay => Some (includes hay s)
  | JArr items => Some (existsb (is_string s) items)
  | _ => None
  end.

(** The match of [/\{.*\}/s]: from the first opening brace to the last closing
    brace after it. *)
Fixpoint from_open_brace (s : string) : option string :=
  match s with
  | EmptyString => None
  | String c rest => if (c =? "{")%char then Some s else from_open_brace rest
  end.

Fixpoint upto_last_close_brace (s : string) : option string :=
  match s with
  | EmptyString => None
  | String c rest =>
      match upto_last_close_brace rest with
      | Some t => Some (String c t)
      | None => if (c =? "}")%char then Some (String c EmptyString) else None
      end
  end.

Definition match_braces (s : string) : option string :=
  match from_open_brace s with
  | Some t => upto_last_close_brace t
  | None => None
  end.

(** White space and line terminators of ECMAScript, as UTF-8 byte sequences. *)
Definition byte (a : ascii) : N := N_of_ascii a.

Definition ws1 (a : ascii) : bool :=
  existsb (N.eqb (byte a)) [9; 10; 11; 12; 13; 32]%N.

Definition ws2 (a b : ascii) : bool :=
  ((byte a =? 194) && (byte b =? 160))%N.

Definition ws3 (a b c : ascii) : bool :=
  let x := byte a in
  let y := byte b in
  let z := byte c in
  (((x =? 225) && (y =? 154) && (z =? 128))
   || ((x =? 226) && (y =? 128)
       && (((128 <=? z) && (z <=? 138)) || (z =? 168) || (z =? 169) || (z =? 175)))
   || ((x =? 226) && (y =? 129) && (z =? 159))
   || ((x =? 227) && (y =? 128) && (z =? 128))
   || ((x =? 239) && (y =? 187) && (z =? 191)))%N.

Fixpoint trim_start (s : string) : string :=
  match s with
  | EmptyString => s
  | String a r1 =>
      if ws1 a then trim_start r1
      else
        match r1 with
        | EmptyString => s
        | String b r2 =>
            if ws2 a b then trim_start r2
            else
              match r2 with
              | EmptyString => s
              | String c r3 => if ws3 a b c then trim_start r3 else s
              end
        end
  end.

Definition blank (s : string) : bool := trim_start s =? "".

Fixpoint trim_end (s : string) : string :=
  match s with
  | EmptyString => s
  | String a rest => if blank s then "" else String a (trim_end rest)
  end.

(** [String.prototype.trim]. *)
Definition trim (s : string) : string := trim_end (trim_start s).

End Js.
Export Js.

(** ** Values thrown and promises *)

(** An object that was thrown, by the properties the handlers read:
    [instanceof Error], ['status' in error], ['body' in error],
    ['message' in error]. [status] and [message] have the types that
    generate-image.ts declares for them when it reads them
    ([error as { status: number; body: any; message: string }], lines 74 and
    104): a number and a text. The casts check nothing: a thrown object whose
    [message] is not a text is outside this type, and on it
    [errorMessage.includes] (line 105, and [error.message.includes] at line 253
    of the page) throws inside the handler. What is proved below of the
    handlers is proved of thrown values of this type. *)
Record ErrorObj := {
  instanceofError : bool;
  status : option Z;
  body : option JsVal;
  message : option string
}.

Inductive Thrown :=
| ThrownNullish
| ThrownPrimitive
| ThrownObject (o : ErrorObj).

(** [new Error(msg)], and the TypeError the host raises. *)
Definition Error (msg : string) : Thrown :=
  ThrownObject {| instanceofError := true; status := None; body := None; message := Some msg |}.

Definition TypeError (msg : string) : Thrown := Error msg.

Inductive Settled (A : Type) :=
| Resolved (value : A)
| Rejected (reason : Thrown).
Arguments Resolved {A} value.
Arguments Rejected {A} reason.

(** ** Data of the application *)

(** Modelled from the spec: the declarations of types/flux ([Model], [Image],
    [GenerateImageResponse], [Generation]) are not among the sources. Section 3
    of the specification gives the result as a success with images, seed,
    request id, timings and NSFW flags, or a failure with a message and an
    optional error code, and an image as a URL with optional dimensions and
    content type; the records below carry those fields under the names the code
    reads and writes. *)
Record Model := { id : string; name : string }.

Record Image := {
  url : string;
  width : option Z;
  height : option Z;
  content_type : option string
}.

Record SuccessResponse := {
  images : list Image;
  seed : JsVal;
  requestId : string;
  timings : JsVal;
  has_nsfw_concepts : list bool
}.

Inductive GenerateImageResponse :=
| Success (r : SuccessResponse)
| Failure (error : string) (errorCode : option string).

(** What [fal.subscribe] resolves with. *)
Record ResultData := {
  data_images : option (list Image);
  data_seed : JsVal;
  data_timings : JsVal;
  data_has_nsfw_concepts : option (list bool)
}.

Record SubscribeResult := {
  result_requestId : string;
  result_data : option ResultData
}.

Inductive SubscribeOutcome :=
| Completed (result : SubscribeResult)
| Threw (error : Thrown).

(** [localStorage]: "fal-ai-active-key", "fal-ai-api-keys" (the [key] of each
    entry) and "fal-ai-active-key-index". *)
Record Storage := {
  active_key : option string;
  api_keys : list string;
  active_key_index : option Z
}.

Record Generation := {
  gen_id : string;
  modelId : string;
  modelName : string;
  gen_prompt : string;
  gen_parameters : gmap string JsVal;
  output_images : list Image;
  output_timings : JsVal;
  output_seed : JsVal;
  output_has_nsfw_concepts : list bool;
  timestamp : Z;
  userId : JsVal;
  isCurrentUser : bool
}.

Record Call := {
  call_model : string;
  call_input : gmap string JsVal;
  call_credentials : string
}.

Inductive Event :=
| EvSubscribe (c : Call)
| EvRotate (switched : bool)
| EvSave (g : Generation)
| EvAwaitAll
| EvToastSuccess (title : string) (seed : JsVal)
| EvToastError (title : string) (description : option string)
| EvSetTimeout (ms : Z).

Record World := {
  storage : Storage;
  trace : list Event
}.

Definition emit (e : Event) (w : World) : World :=
  {| storage := storage w; trace := trace w ++ [e] |}.

Definition is_rotate (e : Event) : bool :=
  match e with EvRotate _ => true | _ => false end.

Definition calls (t : list Event) : list Call :=
  omap (fun e => match e with EvSubscribe c => Some c | _ => None end) t.

Definition rotations (t : list Event) : nat := length (filter is_rotate t).

(** ** Collaborators *)

(** The host and the outbound client. [JSON_parse] is [None] where
    [JSON.parse] throws. [gt_coerced v n] is [v > n] for an operand [v] that is
    a string, an array or an object, which the host first converts to a number.
    [fal_subscribe n] is the outcome of the call made after [n] earlier ones;
    [uuidv4 n] and [Date_now n] are what the [n]-th record receives. *)
Class Host := {
  JSON_parse : string -> option JsVal;
  gt_coerced : JsVal -> Z -> bool;
  fal_subscribe : nat -> string -> gmap string JsVal -> string -> SubscribeOutcome;
  uuidv4 : nat -> string;
  Date_now : nat -> Z
}.

(** services/generation-history and lib/supabase. A call of [saveGeneration]
    returns a promise that is fulfilled, or rejected at some moment with a
    reason. *)
Inductive SaveOutcome :=
| Saved
| SaveRejected (at_time : nat) (reason : Thrown).

Class Persistence := {
  saveGeneration : Generation -> SaveOutcome;
  currentUserId : JsVal
}.

(** services/api-key-manager: the truth value of what
    [handleBalanceExhaustedError()] returns, and what it leaves in storage. *)
Class KeyManager := {
  handleBalanceExhaustedError : Storage -> bool * Storage
}.

(** ** services/generate-image.ts *)
Section GenerateImage.
Context `{Host} `{KeyManager}.

Definition balance_fragment : string := "Exhausted balance".
Definition missing_key_message : string := "请先设置您的FAL.AI API密钥".
Definition no_images_message : string := "未生成图像".
Definition generic_failure_message : string := "生成图像失败".
Definition all_keys_exhausted_message : string :=
  "所有API密钥余额不足，请添加新的API密钥或充值".
Definition ALL_KEYS_EXHAUSTED : string := "ALL_KEYS_EXHAUSTED".

(** Lines 10-13: the log entry evaluates [input.prompt?.substring(0, 50)]
    before the [try] block is entered. *)
Definition log_start (input : gmap string JsVal) : option Thrown :=
  match input !! "prompt" with
  | None | Some JUndefined | Some JNull => None
  | Some (JStr _) => None
  | Some _ => Some (TypeError "input.prompt?.substring is not a function")
  end.

(** The outbound call as the trace records it. *)
Definition sent (model : Model) (input : gmap string JsVal) (apiKey : string) : Call :=
  {| call_model := id model; call_input := input; call_credentials := apiKey |}.

(** Lines 15-65: the [try] block. *)
Definition try_block (w : World) (model : Model) (input : gmap string JsVal)
    (apiKey : string) : World * (Thrown + GenerateImageResponse) :=
  if apiKey =? "" then (w, inl (Error missing_key_message))
  else
    let w1 := emit (EvSubscribe (sent model input apiKey)) w in
    match fal_subscribe (length (calls (trace w))) (id model) input apiKey with
    | Threw error => (w1, inl error)
    | Completed result =>
        match result_data result ≫= data_images with
        | None | Some [] => (w1, inl (Error no_images_message))
        | Some imgs =>
            (w1, inr (Success {|
               images := imgs;
               seed := from_option data_seed JUndefined (result_data result);
               requestId := result_requestId result;
               timings :=
                 (let t := from_option data_timings JUndefined (result_data result) in
                  if truthy t then t else JObj []);
               has_nsfw_concepts :=
                 default [] (result_data result ≫= data_has_nsfw_concepts) |}))
        end
    end.

(** ['message' in error] and [error.message]: an [Error] has the property
    through its prototype, where it is the empty string. *)
Definition message_in (o : ErrorObj) : option string :=
  match message o with
  | Some m => Some m
  | None => if instanceofError o then Some "" else None
  end.

(** Lines 79-81. *)
Definition body_detail_exhausted (b : JsVal) : bool :=
  truthy b && truthy (field "detail" b) &&
  match field "detail" b with
  | JStr d => includes d balance_fragment
  | _ => false
  end.

(** Lines 123-146, up to the call of the key manager: [Some true] when the
    embedded JSON names the exhausted balance, [None] when the inner [try]
    throws (a SyntaxError of [JSON.parse], a TypeError) and the inner [catch]
    takes over. *)
Definition embedded_detail_exhausted (errorMessage : string) : option bool :=
  match match_braces errorMessage with
  | None => Some false
  | Some text =>
      match JSON_parse text with
      | None => None
      | Some errorJson =>
          if nullish errorJson then None
          else if truthy (field "detail" errorJson)
               then includes_any (field "detail" errorJson) balance_fragment
               else Some false
      end
  end.

Definition Outcome : Type := option (World * Settled GenerateImageResponse).

(** Lines 84-96, 107-119 and 129-141: the same block three times. The retry
    reads [localStorage.getItem("fal-ai-active-key") || ""]. *)
Definition switch_and_retry (retry : World -> string -> Outcome) (w : World) : Outcome :=
  let (switched, st) := handleBalanceExhaustedError (storage w) in
  let w' := emit (EvRotate switched) {| storage := st; trace := trace w |} in
  if switched then retry w' (default "" (active_key st))
  else Some (w', Resolved (Failure all_keys_exhausted_message (Some ALL_KEYS_EXHAUSTED))).

(** Line 152: [error instanceof Error ? error.message : "..."]. *)
Definition error_text (error : Thrown) : string :=
  match error with
  | ThrownObject o =>
      if instanceofError o then default "" (message_in o) else generic_failure_message
  | _ => generic_failure_message
  end.

(** Lines 150-153. *)
Definition plain_failure (error : Thrown) : GenerateImageResponse :=
  Failure (error_text error) None.

(** Lines 66-154: the [catch] block. *)
Definition catch_block (retry : World -> string -> Outcome) (w : World)
    (error : Thrown) : Outcome :=
  let otherwise := Some (w, Resolved (plain_failure error)) in
  match error with
  | ThrownObject o =>
      if match status o, body o with
         | Some st, Some b => (st =? 403)%Z && body_detail_exhausted b
         | _, _ => false
         end
      then switch_and_retry retry w
      else
        match message_in o with
        | Some errorMessage =>
            if includes errorMessage "403" && includes errorMessage balance_fragment
            then switch_and_retry retry w
            else
              match embedded_detail_exhausted errorMessage with
              | Some true => switch_and_retry retry w
              | _ => otherwise
              end
        | None => otherwise
        end
  | _ => otherwise
  end.

(** [generateImage], with [fuel] bounding the depth of its recursion. *)
Fixpoint generateImage (fuel : nat) (w : World) (model : Model)
    (input : gmap string JsVal) (apiKey : string) : Outcome :=
  match fuel with
  | O => None
  | S fuel' =>
      match log_start input with
      | Some error => Some (w, Rejected error)
      | None =>
          match try_block w model input apiKey with
          | (w1, inr response) => Some (w1, Resolved response)
          | (w1, inl error) =>
              catch_block (fun w2 key => generateImage fuel' w2 model input key) w1 error
          end
      end
  end.

(** The call of [generateImage] on itself, with the model and the parameters
    it was given. *)
Definition retry_with (fuel : nat) (model : Model) (input : gmap string JsVal)
    : World -> string -> Outcome :=
  fun w key => generateImage fuel w model input key.

End GenerateImage.

(** ** components/ImageGenerator.vue *)
Section ImageGenerator.
Context `{Host} `{KeyManager} `{Persistence}.

(** [v > n] for a limit [n]; [undefined] converts to NaN, [null] to 0, a
    boolean to 0 or 1. *)
Definition gt (v : JsVal) (n : Z) : bool :=
  match v with
  | JNum m => (n <? m)%Z
  | JUndefined => false
  | JNull => (n <? 0)%Z
  | JBool b => (n <? (if b then 1 else 0))%Z
  | _ => gt_coerced v n
  end.

(** Lines 18-23. *)
Definition ensureValidNumImages (params : gmap string JsVal) : gmap string JsVal :=
  match params !! "num_images" with
  | Some num_images =>
      if truthy num_images && gt num_images 4
      then <["num_images" := JNum 4]> params
      else params
  | None => params
  end.

(** Line 143: [lora.path && lora.path.trim() !== ''], [None] where it throws a
    TypeError (a [lora] that is [null] or [undefined], a [path] that is not a
    string and not falsy). *)
Definition lora_has_path (lora : JsVal) : option bool :=
  if nullish lora then None
  else
    match field "path" lora with
    | JStr path => Some (truthy (JStr path) && negb (trim path =? ""))
    | path => if truthy path then None else Some false
    end.

(** [Array.prototype.filter] with that callback. *)
Fixpoint filter_loras (loras : list JsVal) : option (list JsVal) :=
  match loras with
  | [] => Some []
  | lora :: rest =>
      match lora_has_path lora with
      | None => None
      | Some keep =>
          match filter_loras rest with
          | None => None
          | Some kept => Some (if keep then lora :: kept else kept)
          end
      end
  end.

(** Lines 135-150. *)
Definition prepare_parameters (parameters : gmap string JsVal) (prompt : string)
    : Thrown + gmap string JsVal :=
  let allParameters := ensureValidNumImages (<["prompt" := JStr prompt]> parameters) in
  match allParameters !! "loras" with
  | Some (JArr loras) =>
      match filter_loras loras with
      | None => inl (TypeError "lora.path.trim is not a function")
      | Some [] => inr (delete "loras" allParameters)
      | Some kept => inr (<["loras" := JArr kept]> allParameters)
      end
  | _ => inr allParameters
  end.

(** Lines 160-172. *)
Definition active_api_key (st : Storage) : string * Storage :=
  let apiKey := default "" (active_key st) in
  if negb (apiKey =? "") then (apiKey, st)
  else
    let activeKeyIndex := default (-1)%Z (active_key_index st) in
    if ((0 <=? activeKeyIndex) && (activeKeyIndex <? Z.of_nat (length (api_keys st))))%Z
    then
      let key := default "" (api_keys st !! Z.to_nat activeKeyIndex) in
      (key, {| active_key := Some key;
               api_keys := api_keys st;
               active_key_index := active_key_index st |})
    else (apiKey, st).

Record Ui := {
  prompt : string;
  parameters : gmap string JsVal;
  result : option (list Image);
  isGenerating : bool
}.

Definition set_generating (b : bool) (ui : Ui) : Ui :=
  {| prompt := prompt ui; parameters := parameters ui; result := result ui;
     isGenerating := b |}.

Definition set_result (imgs : list Image) (ui : Ui) : Ui :=
  {| prompt := prompt ui; parameters := parameters ui; result := Some imgs;
     isGenerating := isGenerating ui |}.

Definition saved (t : list Event) : list Generation :=
  omap (fun e => match e with EvSave g => Some g | _ => None end) t.

(** Lines 204-220: the record of the image at [index], the [n]-th record made. *)
Definition newGeneration (model : Model) (ui : Ui) (allParameters : gmap string JsVal)
    (r : SuccessResponse) (n index : nat) (image : Image) : Generation :=
  {| gen_id := uuidv4 n;
     modelId := id model;
     modelName := name model;
     gen_prompt := prompt ui;
     gen_parameters := allParameters;
     output_images := [image];
     output_timings := (if truthy (timings r) then timings r else JObj []);
     output_seed := seed r;
     output_has_nsfw_concepts := [nth index (has_nsfw_concepts r) false];
     timestamp := Date_now n;
     userId := currentUserId;
     isCurrentUser := true |}.

(** Lines 202-224: [images.map(async ...)]. Each callback runs up to its
    [await], that is: it builds its record and calls [saveGeneration]. *)
Definition savePromises (model : Model) (ui : Ui) (allParameters : gmap string JsVal)
    (r : SuccessResponse) (n : nat) : list Generation :=
  imap (fun index image => newGeneration model ui allParameters r (n + index) index image)
       (images r).

(** [await Promise.all(promises)]: [None] when every promise is fulfilled, else
    the reason of the promise rejected first. *)
Fixpoint first_rejection (outcomes : list SaveOutcome) : option (nat * Thrown) :=
  match outcomes with
  | [] => None
  | Saved :: rest => first_rejection rest
  | SaveRejected t reason :: rest =>
      match first_rejection rest with
      | Some (t', reason') => if (t' <? t)%nat then Some (t', reason') else Some (t, reason)
      | None => Some (t, reason)
      end
  end.

Definition Promise_all (outcomes : list SaveOutcome) : option Thrown :=
  snd <$> first_rejection outcomes.

Definition check_key_hint : string := "请检查您的API密钥和网络连接".

(** Lines 190-248: what follows [await generateImage(...)]. *)
Definition handle_response (model : Model) (ui : Ui) (allParameters : gmap string JsVal)
    (w : World) (response : GenerateImageResponse) : Ui * World * (Thrown + unit) :=
  match response with
  | Success successResponse =>
      let ui' := set_result (images successResponse) ui in
      let promises :=
        savePromises model ui allParameters successResponse (length (saved (trace w))) in
      let w1 := foldl (fun w g => emit (EvSave g) w) w promises in
      let w2 := emit EvAwaitAll w1 in
      match Promise_all (saveGeneration <$> promises) with
      | Some reason => (ui', w2, inl reason)
      | None => (ui', emit (EvToastSuccess "图像生成成功" (seed successResponse)) w2, inr ())
      end
  | Failure error errorCode =>
      if bool_decide (errorCode = Some "ALL_KEYS_EXHAUSTED")
      then (ui, emit (EvToastError "所有API密钥余额不足"
                        (Some "请添加新的API密钥或充值您的账户。")) w, inr ())
      else (ui, emit (EvToastError "生成失败"
                        (Some (if error =? "" then check_key_hint else error))) w, inr ())
  end.

(** Lines 133-248: the [try] block. *)
Definition generate_try (fuel : nat) (model : Model) (ui : Ui) (w : World)
    : option (Ui * World * (Thrown + unit)) :=
  match prepare_parameters (parameters ui) (prompt ui) with
  | inl error => Some (ui, w, inl error)
  | inr allParameters =>
      let (apiKey, st) := active_api_key (storage w) in
      let w1 := {| storage := st; trace := trace w |} in
      if apiKey =? ""
      then Some (set_generating false ui,
                 emit (EvToastError "未设置API密钥"
                         (Some "请先在设置中添加并选择一个FAL.AI API密钥")) w1,
                 inr ())
      else
        match generateImage fuel w1 model allParameters apiKey with
        | None => None
        | Some (w2, Rejected error) => Some (ui, w2, inl error)
        | Some (w2, Resolved response) =>
            Some (handle_response model ui allParameters w2 response)
        end
  end.

(** Lines 249-265: the [catch] block. Reading [error.status] of [null] or
    [undefined] throws. *)
Definition generate_catch (w : World) (error : Thrown) : World * Settled unit :=
  let failed (description : string) := emit (EvToastError "生成失败" (Some description)) w in
  match error with
  | ThrownNullish =>
      (w, Rejected (TypeError "Cannot read properties of undefined (reading 'status')"))
  | ThrownPrimitive => (failed check_key_hint, Resolved ())
  | ThrownObject o =>
      let text := default "" (message_in o) in
      if bool_decide (status o = Some 403%Z) && negb (text =? "") && includes text "balance"
      then (emit (EvSetTimeout 1500)
              (emit (EvToastError "正在切换到下一个API密钥"
                       (Some "当前API密钥余额不足，系统将自动切换。")) w),
            Resolved ())
      else (failed (if text =? "" then check_key_hint else text), Resolved ())
  end.

(** Lines 123-269. *)
Definition handleGenerate (fuel : nat) (model : Model) (ui : Ui) (w : World)
    : option (Ui * World * Settled unit) :=
  if trim (prompt ui) =? ""
  then Some (ui, emit (EvToastError "请输入提示词" None) w, Resolved ())
  else
    match generate_try fuel model (set_generating true ui) w with
    | None => None
    | Some (ui1, w1, inr _) => Some (set_generating false ui1, w1, Resolved ())
    | Some (ui1, w1, inl error) =>
        let (w2, settled) := generate_catch w1 error in
        Some (set_generating false ui1, w2, settled)
    end.

End ImageGenerator.

(** ** components/ImageGenerator.vue: initial parameters and loaded settings *)

(** An entry of [props.model.inputSchema], by the two properties the code
    reads, [param.key] and [param.default] ([JUndefined] where there is none).
    The declaration is in types/flux, which is not among the sources; the
    schema is passed beside the [Model], whose record holds [id] and [name]. *)
Record InputParam := { key : string; default_value : JsVal }.

(** What [handleLoadSettings] receives; [settings.prompt || ''] allows for a
    prompt that is missing. *)
Record Settings := {
  settings_parameters : gmap string JsVal;
  settings_prompt : option string
}.

Section Settings.
Context `{Host}.

Definition is_undefined (v : JsVal) : bool :=
  match v with
  | JUndefined => true
  | _ => false
  end.

(** Lines 93-95. *)
Definition hasParameter (inputSchema : list InputParam) (k : string) : bool :=
  existsb (fun param => key param =? k) inputSchema.

(** [Object.fromEntries]: of two entries with one key the later one stays. *)
Definition fromEntries (entries : list (string * JsVal)) : gmap string JsVal :=
  list_to_map (reverse entries).

(** Lines 28-32. *)
Definition defaultParams (inputSchema : list InputParam) : gmap string JsVal :=
  fromEntries
    ((fun param => (key param, default_value param)) <$>
     filter (fun param => negb (is_undefined (default_value param))) inputSchema).

(** [if (hasParameter(k)) { customDefaults.k = v }]. *)
Definition custom (inputSchema : list InputParam) (k : string) (v : JsVal)
    (customDefaults : gmap string JsVal) : gmap string JsVal :=
  if hasParameter inputSchema k then <[k := v]> customDefaults else customDefaults.

(** Lines 35-84. *)
Definition customDefaults (model : Model) (inputSchema : list InputParam)
    : gmap string JsVal :=
  let set := custom inputSchema in
  let common := set "num_images" (JNum 1) (set "output_format" (JStr "png") ∅) in
  if id model =? "fal-ai/flux-pro/v1.1" then
    set "safety_tolerance" (JStr "6")
      (set "enable_safety_checker" (JBool false)
         (set "image_size" (JStr "landscape_16_9") common))
  else if id model =? "fal-ai/flux-pro/v1.1-ultra" then
    set "safety_tolerance" (JStr "6")
      (set "enable_safety_checker" (JBool false)
         (set "aspect_ratio" (JStr "16:9") common))
  else if id model =? "fal-ai/flux-lora" then
    set "loras" (JArr [])
      (set "enable_safety_checker" (JBool false)
         (set "num_inference_steps" (JNum 40)
            (set "guidance_scale" (JNum 7)
               (set "image_size" (JStr "landscape_16_9") common))))
  else common.

(** Lines 26-88: [{ ...defaultParams, ...customDefaults }], clamped. *)
Definition initParameters (model : Model) (inputSchema : list InputParam)
    : gmap string JsVal :=
  ensureValidNumImages (customDefaults model inputSchema ∪ defaultParams inputSchema).

(** The page as it is set up: lines 90-104. *)
Definition mounted (model : Model) (inputSchema : list InputParam) : Ui :=
  {| prompt := "";
     parameters := initParameters model inputSchema;
     result := None;
     isGenerating := false |}.

(** Lines 109-121. *)
Definition handleLoadSettings (model : Model) (inputSchema : list InputParam)
    (settings : Settings) (ui : Ui) : Ui :=
  let baseParams := initParameters model inputSchema in
  let loaded := ensureValidNumImages (settings_parameters settings ∪ baseParams) in
  {| prompt := default "" (settings_prompt settings);
     parameters :=
       (if (id model =? "fal-ai/flux-lora")
           && negb (truthy (default JUndefined (loaded !! "loras")))
        then <["loras" := JArr []]> loaded
        else loaded);
     result := result ui;
     isGenerating := isGenerating ui |}.

End Settings.

(** ** The credential rotation policy *)
Module RotationPolicy.

(** Modelled from the spec: services/api-key-manager, whose
    [handleBalanceExhaustedError] the dispatcher calls, is not among the
    sources. Section 4.2: [advance()] moves the active index to [current + 1];
    if the new index is within bounds it marks that credential active and
    returns it; if out of bounds it leaves the state exhausted and returns
    none, and keeps doing so. The active credential is held the way
    ImageGenerator.vue reads it: the credential under "fal-ai-active-key", its
    position under "fal-ai-active-key-index" (unset reads as -1). *)
Definition advance (st : Storage) : option string * Storage :=
  let next := (default (-1) (active_key_index st) + 1)%Z in
  match (if (0 <=? next)%Z then api_keys st !! Z.to_nat next else None) with
  | Some credential =>
      (Some credential,
       {| active_key := Some credential;
          api_keys := api_keys st;
          active_key_index := Some next |})
  | None =>
      (None,
       {| active_key := active_key st;
          api_keys := api_keys st;
          active_key_index := Some (Z.of_nat (length (api_keys st))) |})
  end.

(** Modelled from the spec: [getActive()], the credential at the active index,
    or none if unset or out of range. *)
Definition getActive (st : Storage) : option string :=
  match active_key_index st with
  | Some i => if (0 <=? i)%Z then api_keys st !! Z.to_nat i else None
  | None => None
  end.

(** Modelled from the spec: [handleBalanceExhaustedError] of
    services/api-key-manager is the call of [advance()]; it reports a switch
    when [advance()] returns a credential. *)
Definition manager : KeyManager :=
  {| handleBalanceExhaustedError st := (bool_decide (is_Some (advance st).1), (advance st).2) |}.

(** Credentials that [advance()] has not reached yet. *)
Definition remaining (st : Storage) : list string :=
  let next := (default (-1) (active_key_index st) + 1)%Z in
  if (0 <=? next)%Z then drop (Z.to_nat next) (api_keys st) else [].

End RotationPolicy.

(** ** The three signals, as the specification words them *)
Module Signals.
Section Signals.
Context `{Host}.

Inductive Signal := StructuredBody | MessageMarker | EmbeddedJson.

Definition detail_names_balance (v : JsVal) : bool :=
  match includes_any (field "detail" v) balance_fragment with
  | Some true => true
  | _ => false
  end.

(** (a) a structured error, of status 403, whose body detail is a string that
    contains the fragment. *)
Definition structured_body (error : Thrown) : bool :=
  match error with
  | ThrownObject o =>
      match status o, body o with
      | Some st, Some b =>
          (st =? 403)%Z &&
          match field "detail" b with
          | JStr d => includes d balance_fragment
          | _ => false
          end
      | _, _ => false
      end
  | _ => false
  end.

(** (a) as the claim words it: a structured error body whose detail contains
    the fragment, whatever the status. *)
Definition structured_body_any_status (error : Thrown) : bool :=
  match error with
  | ThrownObject o =>
      match status o, body o with
      | Some _, Some b => detail_names_balance b
      | _, _ => false
      end
  | _ => false
  end.

(** (b) a message that contains the 403 marker and the fragment. *)
Definition message_marker (error : Thrown) : bool :=
  match error with
  | ThrownObject o =>
      match message_in o with
      | Some m => includes m "403" && includes m balance_fragment
      | None => false
      end
  | _ => false
  end.

(** (c) a JSON value extracted from the message whose detail contains the
    fragment. *)
Definition embedded_json (error : Thrown) : bool :=
  match error with
  | ThrownObject o =>
      match message_in o with
      | Some m =>
          match match_braces m with
          | Some text =>
              match JSON_parse text with
              | Some errorJson => detail_names_balance errorJson
              | None => false
              end
          | None => false
          end
      | None => false
      end
  | _ => false
  end.

Definition detector (s : Signal) : Thrown -> bool :=
  match s with
  | StructuredBody => structured_body
  | MessageMarker => message_marker
  | EmbeddedJson => embedded_json
  end.

Definition signals : list Signal := [StructuredBody; MessageMarker; EmbeddedJson].

(** The first signal, in the fixed order, that matches. *)
Definition first_match (error : Thrown) : option Signal :=
  find (fun s => detector s error) signals.

Definition first_match_as_claimed (error : Thrown) : option Signal :=
  find (fun s => match s with
                 | StructuredBody => structured_body_any_status error
                 | _ => detector s error
                 end) signals.

(** Which of the three blocks of the [catch] clause of [generateImage] is
    reached: lines 84-96, 107-119 or 129-141. *)
Definition fired (error : Thrown) : option Signal :=
  match error with
  | ThrownObject o =>
      if match status o, body o with
         | Some st, Some b => (st =? 403)%Z && body_detail_exhausted b
         | _, _ => false
         end
      then Some StructuredBody
      else
        match message_in o with
        | Some errorMessage =>
            if includes errorMessage "403" && includes errorMessage balance_fragment
            then Some MessageMarker
            else
              match embedded_detail_exhausted errorMessage with
              | Some true => Some EmbeddedJson
              | _ => None
              end
        | None => None
        end
  | _ => None
  end.

End Signals.
End Signals.
Export Signals.

(** ** Vocabulary of the properties *)

(** One white-space character, in UTF-8. *)
Inductive WhiteSpace : string -> Prop :=
| white1 a : ws1 a = true -> WhiteSpace (String a "")
| white2 a b : ws2 a b = true -> WhiteSpace (String a (String b ""))
| white3 a b c : ws3 a b c = true -> WhiteSpace (String a (String b (String c ""))).

(** The empty string, or white space only. *)
Inductive WhitespaceOnly : string -> Prop :=
| only_empty : WhitespaceOnly ""
| only_more t s : WhiteSpace t -> WhitespaceOnly s -> WhitespaceOnly (t ++ s).

(** Events of the dispatcher, for a given model and parameter bag. *)
Definition dispatch_event (model : Model) (input : gmap string JsVal) (e : Event) : Prop :=
  match e with
  | EvSubscribe c => call_model c = id model /\ call_input c = input
  | EvRotate _ => True
  | _ => False
  end.

(** Events of the dispatcher whose outbound calls carry the model, the
    parameters and a credential that is not empty. *)
Definition own_event (model : Model) (input : gmap string JsVal) (e : Event) : Prop :=
  match e with
  | EvSubscribe c => c = sent model input (call_credentials c) /\ call_credentials c <> ""
  | EvRotate _ => True
  | _ => False
  end.

(** Events of the page that are neither outbound calls nor records saved. *)
Definition page_event (e : Event) : Prop :=
  match e with
  | EvAwaitAll | EvToastSuccess _ _ | EvToastError _ _ | EvSetTimeout _ => True
  | _ => False
  end.

(** The world in which [await Promise.all(savePromises)] settles. *)
Definition awaiting (w : World) (records : list Generation) : World :=
  {| storage := storage w;
     trace := (trace w ++ (EvSave <$> records) ++ [EvAwaitAll])%list |}.

(** An event that reports a failure to the user. *)
Definition reports_failure (e : Event) : Prop :=
  match e with
  | EvToastError _ _ => True
  | _ => False
  end.

Definition reports_success (e : Event) : Prop :=
  match e with
  | EvToastSuccess _ _ => True
  | _ => False
  end.

(** An entry whose path is a string with something other than white space. *)
Definition path_given (lora : JsVal) : bool :=
  match field "path" lora with
  | JStr path => negb (blank path)
  | _ => false
  end.

(** An entry of the declared type [{ path: string; scale: number }], its path
    possibly missing: not [null] or [undefined], and with a path that is a
    string unless it is falsy. *)
Definition lora_shape (lora : JsVal) : Prop :=
  nullish lora = false /\
  (truthy (field "path" lora) = true -> exists path, field "path" lora = JStr path).

Section RunVocabulary.
Context `{Host} `{KeyManager} `{Persistence}.

(** The toast of a response that is a failure: lines 239-247. *)
Definition failure_toast (text : string) (code : option string) : Event :=
  if bool_decide (code = Some "ALL_KEYS_EXHAUSTED")
  then EvToastError "所有API密钥余额不足" (Some "请添加新的API密钥或充值您的账户。")
  else EvToastError "生成失败" (Some (if text =? "" then check_key_hint else text)).

(** The condition of line 253. *)
Definition asks_for_switch (error : Thrown) : bool :=
  match error with
  | ThrownObject o =>
      bool_decide (status o = Some 403%Z)
      && negb (default "" (message_in o) =? "")
      && includes (default "" (message_in o)) "balance"
  | _ => false
  end.

(** Every run of [handleGenerate] with a prompt that is not blank. *)
Inductive Run (fuel : nat) (model : Model) (ui : Ui) (w : World)
    : Ui -> World -> Settled unit -> Prop :=
| run_unprepared thrown :
    prepare_parameters (parameters ui) (prompt ui) = inl thrown ->
    Run fuel model ui w (set_generating false ui)
      (generate_catch w thrown).1 (generate_catch w thrown).2
| run_without_key allParameters st :
    prepare_parameters (parameters ui) (prompt ui) = inr allParameters ->
    active_api_key (storage w) = ("", st) ->
    Run fuel model ui w (set_generating false ui)
      (emit (EvToastError "未设置API密钥"
               (Some "请先在设置中添加并选择一个FAL.AI API密钥"))
         {| storage := st; trace := trace w |})
      (Resolved ())
| run_failed allParameters apiKey st w2 text code :
    prepare_parameters (parameters ui) (prompt ui) = inr allParameters ->
    active_api_key (storage w) = (apiKey, st) ->
    apiKey <> "" ->
    generateImage fuel {| storage := st; trace := trace w |} model allParameters apiKey =
      Some (w2, Resolved (Failure text code)) ->
    Run fuel model ui w (set_generating false ui)
      (emit (failure_toast text code) w2) (Resolved ())
| run_saved allParameters apiKey st w2 r :
    prepare_parameters (parameters ui) (prompt ui) = inr allParameters ->
    active_api_key (storage w) = (apiKey, st) ->
    apiKey <> "" ->
    generateImage fuel {| storage := st; trace := trace w |} model allParameters apiKey =
      Some (w2, Resolved (Success r)) ->
    let records :=
      savePromises model (set_generating true ui) allParameters r
        (length (saved (trace w2))) in
    Promise_all (saveGeneration <$> records) = None ->
    Run fuel model ui w (set_generating false (set_result (images r) ui))
      (emit (EvToastSuccess "图像生成成功" (seed r)) (awaiting w2 records)) (Resolved ())
| run_unsaved allParameters apiKey st w2 r reason :
    prepare_parameters (parameters ui) (prompt ui) = inr allParameters ->
    active_api_key (storage w) = (apiKey, st) ->
    apiKey <> "" ->
    generateImage fuel {| storage := st; trace := trace w |} model allParameters apiKey =
      Some (w2, Resolved (Success r)) ->
    let records :=
      savePromises model (set_generating true ui) allParameters r
        (length (saved (trace w2))) in
    Promise_all (saveGeneration <$> records) = Some reason ->
    Run fuel model ui w (set_generating false (set_result (images r) ui))
      (generate_catch (awaiting w2 records) reason).1
      (generate_catch (awaiting w2 records) reason).2.

End RunVocabulary.

(** ** Concrete collaborators and data for the examples *)
Module Fixtures.

Definition dquote : ascii := ascii_of_N 34.
Definition backslash : ascii := ascii_of_N 92.
Definition quoted (s : string) : string := String dquote s ++ String dquote "".

(** A [JSON.parse] for objects whose members are strings without escapes,
    written without white space; it throws on any other text. *)
Fixpoint read_until_quote (s : string) : option (string * string) :=
  match s with
  | EmptyString => None
  | String c rest =>
      if (c =? dquote)%char then Some ("", rest)
      else if (c =? backslash)%char then None
      else
        match read_until_quote rest with
        | Some (content, after) => Some (String c content, after)
        | None => None
        end
  end.

Definition read_string (s : string) : option (string * string) :=
  match s with
  | String c rest => if (c =? dquote)%char then read_until_quote rest else None
  | EmptyString => None
  end.

Fixpoint parse_members (fuel : nat) (s : string) : option (list (string * JsVal)) :=
  match fuel with
  | O => None
  | S fuel' =>
      match read_string s with
      | Some (key, String colon after_colon) =>
          if (colon =? ":")%char then
            match read_string after_colon with
            | Some (value, String next rest) =>
                if (next =? "}")%char
                then (if rest =? "" then Some [(key, JStr value)] else None)
                else if (next =? ",")%char
                then cons (key, JStr value) <$> parse_members fuel' rest
                else None
            | _ => None
            end
          else None
      | _ => None
      end
  end.

Definition parse_flat_object (s : string) : option JsVal :=
  match s with
  | String c rest =>
      if (c =? "{")%char
      then (if rest =? "}" then Some (JObj [])
            else JObj <$> parse_members (String.length rest) rest)
      else None
  | EmptyString => None
  end.

(** A host whose outbound call answers by call number and credential. *)
Definition host (answer : nat -> string -> SubscribeOutcome) : Host :=
  {| JSON_parse := parse_flat_object;
     gt_coerced := fun _ _ => false;
     fal_subscribe := fun n _ _ key => answer n key;
     uuidv4 := fun n => "00000000-0000-4000-8000-000000000000";
     Date_now := fun n => Z.of_nat n |}.

Definition flux : Model := {| id := "fal-ai/flux-pro/v1.1"; name := "FLUX1.1 [pro]" |}.

Definition a_cat : gmap string JsVal := {[ "prompt" := JStr "a cat" ]}.

Definition exhausted_detail : string :=
  "User is locked. Reason: Exhausted balance. Top up your balance at fal.ai/dashboard/billing.".

(** The ApiError of the client for an account without funds. *)
Definition forbidden : Thrown :=
  ThrownObject {| instanceofError := true;
                  status := Some 403%Z;
                  body := Some (JObj [("detail", JStr exhausted_detail)]);
                  message := Some "Forbidden" |}.

Definition server_error : Thrown := Error "Request failed: 500 Internal Server Error".

Definition img1 : Image :=
  {| url := "https://fal.media/files/1.png"; width := Some 1024%Z; height := Some 576%Z;
     content_type := Some "image/png" |}.

Definition img2 : Image :=
  {| url := "https://fal.media/files/2.png"; width := Some 1024%Z; height := Some 576%Z;
     content_type := Some "image/png" |}.

Definition completed (imgs : option (list Image)) : SubscribeOutcome :=
  Completed {| result_requestId := "req-1";
               result_data := Some {| data_images := imgs;
                                      data_seed := JNum 42;
                                      data_timings := JUndefined;
                                      data_has_nsfw_concepts := Some [false; false] |} |}.

Definition store (keys : list string) (index : Z) : Storage :=
  {| active_key := keys !! Z.to_nat index; api_keys := keys; active_key_index := Some index |}.

Definition world (st : Storage) : World := {| storage := st; trace := [] |}.

(** Every credential in [spent] is out of funds; any other produces [imgs]. *)
Definition funds (spent : list string) (imgs : option (list Image)) : Host :=
  host (fun _ key => if bool_decide (key ∈ spent) then Threw forbidden else completed imgs).

(** A key manager that reports a switch once and stores nothing. *)
Definition forgetful : KeyManager :=
  {| handleBalanceExhaustedError st :=
       (bool_decide (active_key_index st = Some 0%Z),
        {| active_key := None; api_keys := api_keys st; active_key_index := Some 1%Z |}) |}.

Definition history (failing : list string) : Persistence :=
  {| saveGeneration g :=
       if existsb (fun image => bool_decide (url image ∈ failing)) (output_images g)
       then SaveRejected 0 (Error "insert failed")
       else Saved;
     currentUserId := JStr "user-1" |}.

(** A transport error whose text carries the JSON body of the response. *)
Definition embedded : Thrown :=
  Error ("Request failed: {" ++ quoted "detail" ++ ":" ++ quoted "Exhausted balance" ++ "}").

(** An error on which all three signals match. *)
Definition thrice : Thrown :=
  ThrownObject {| instanceofError := true;
                  status := Some 403%Z;
                  body := Some (JObj [("detail", JStr exhausted_detail)]);
                  message := Some ("403 Exhausted balance {" ++ quoted "detail" ++ ":"
                                   ++ quoted "Exhausted balance" ++ "}") |}.

Definition blank_page : Ui :=
  {| prompt := "  "; parameters := ∅; result := None; isGenerating := false |}.

Definition locked_500 : Thrown :=
  ThrownObject {| instanceofError := true;
                  status := Some 500%Z;
                  body := Some (JObj [("detail", JStr "Exhausted balance")]);
                  message := Some "Internal Server Error" |}.

Definition two_keys : World := world (store ["k0"; "k1"] 0).
Definition three_keys : World := world (store ["k0"; "k1"; "k2"] 0).

Definition after_first : World :=
  emit (EvRotate true)
    {| storage := store ["k0"; "k1"] 1; trace := [EvSubscribe (sent flux a_cat "k0")] |}.

Definition after_second : World :=
  emit (EvRotate false)
    {| storage := {| active_key := Some "k1"; api_keys := ["k0"; "k1"];
                     active_key_index := Some 2%Z |};
       trace := (trace after_first ++ [EvSubscribe (sent flux a_cat "k1")])%list |}.

Definition page : Ui :=
  {| prompt := "a cat"; parameters := {[ "num_images" := JNum 2 ]};
     result := None; isGenerating := false |}.

Definition sent_bag : gmap string JsVal :=
  {[ "num_images" := JNum 2; "prompt" := JStr "a cat" ]}.

Definition response_of_two : SuccessResponse :=
  {| images := [img1; img2]; seed := JNum 42; requestId := "req-1"; timings := JObj [];
     has_nsfw_concepts := [false; false] |}.

Definition named_lora : JsVal := JObj [("path", JStr "styles/ink.safetensors"); ("scale", JNum 1)].
Definition spaces_lora : JsVal := JObj [("path", JStr "   "); ("scale", JNum 1)].
Definition pathless_lora : JsVal := JObj [("scale", JNum 1)].

(** A bag whose prompt is a number. *)
Definition numeric_prompt : gmap string JsVal := {[ "prompt" := JNum 5 ]}.

(** Storage without any credential. *)
Definition no_key : World :=
  world {| active_key := None; api_keys := []; active_key_index := None |}.

(** Storage whose slot is empty and whose index points at the second key. *)
Definition indexed : Storage :=
  {| active_key := None; api_keys := ["k0"; "k1"]; active_key_index := Some 1%Z |}.

(** A persistence service that refuses every record for lack of funds. *)
Definition locked_history : Persistence :=
  {| saveGeneration g :=
       SaveRejected 0 (ThrownObject {| instanceofError := true;
                                       status := Some 403%Z;
                                       body := None;
                                       message := Some "insufficient balance" |});
     currentUserId := JStr "user-1" |}.

(** A persistence service whose promises are rejected with [null] or
    [undefined]. *)
Definition null_history : Persistence :=
  {| saveGeneration g := SaveRejected 0 ThrownNullish;
     currentUserId := JStr "user-1" |}.

Definition lora_model : Model := {| id := "fal-ai/flux-lora"; name := "FLUX LoRA" |}.

Definition lora_schema : list InputParam :=
  [ {| key := "prompt"; default_value := JUndefined |};
    {| key := "num_images"; default_value := JNum 8 |};
    {| key := "num_inference_steps"; default_value := JNum 28 |};
    {| key := "seed"; default_value := JNull |};
    {| key := "loras"; default_value := JUndefined |} ].

Definition stored_settings : Settings :=
  {| settings_parameters := {[ "num_images" := JNum 9; "style" := JStr "ink";
                               "loras" := JNull ]};
     settings_prompt := None |}.

End Fixtures.

(** * Properties *)

(** ** The dispatcher *)
Section Dispatcher.
Context `{Host} `{KeyManager}.

Lemma generateImage_step fuel w model input apiKey :
  generateImage (S fuel) w model input apiKey =
  match log_start input with
  | Some error => Some (w, Rejected error)
  | None =>
      match try_block w model input apiKey with
      | (w1, inr response) => Some (w1, Resolved response)
      | (w1, inl error) => catch_block (retry_with fuel model input) w1 error
      end
  end.
Proof. reflexivity. Qed.

Lemma body_detail_exhausted_spec b :
  body_detail_exhausted b =
  match field "detail" b with
  | JStr d => includes d balance_fragment
  | _ => false
  end.
Proof.
  unfold body_detail_exhausted.
  destruct (field "detail" b) as [| | | |d| |] eqn:Hd; simpl;
    try (now rewrite ?andb_false_r); try apply andb_false_r.
  destruct b; try discriminate Hd. simpl.
  destruct d; reflexivity.
Qed.

Lemma embedded_detail_exhausted_spec m :
  match embedded_detail_exhausted m with Some true => true | _ => false end =
  match match_braces m with
  | Some text =>
      match JSON_parse text with
      | Some errorJson => detail_names_balance errorJson
      | None => false
      end
  | None => false
  end.
Proof.
  unfold embedded_detail_exhausted, detail_names_balance.
  destruct (match_braces m) as [text|]; [|reflexivity].
  destruct (JSON_parse text) as [j|]; [|reflexivity].
  destruct j as [| | | | | |fs]; try reflexivity.
  simpl. destruct (assoc "detail" fs) as [| |b|n|d| |]; try reflexivity.
  - destruct b; reflexivity.
  - simpl. destruct (n =? 0)%Z; reflexivity.
  - simpl. destruct d; reflexivity.
Qed.

Lemma fired_first_match error : fired error = first_match error.
Proof.
  destruct error as [| |o]; try reflexivity.
  unfold first_match, signals, fired. simpl find.
  unfold structured_body, message_marker, embedded_json.
  assert (Ha : match status o, body o with
               | Some st, Some b => (st =? 403)%Z && body_detail_exhausted b
               | _, _ => false
               end =
               match status o, body o with
               | Some st, Some b =>
                   (st =? 403)%Z &&
                   match field "detail" b with
                   | JStr d => includes d balance_fragment
                   | _ => false
                   end
               | _, _ => false
               end).
  { destruct (status o), (body o); try reflexivity.
    now rewrite body_detail_exhausted_spec. }
  rewrite Ha. clear Ha.
  destruct (match status o, body o with
            | Some st, Some b => _
            | _, _ => false
            end); [reflexivity|].
  destruct (message_in o) as [m|]; [|reflexivity].
  destruct (includes m "403" && includes m balance_fragment); [reflexivity|].
  rewrite <- embedded_detail_exhausted_spec.
  destruct (embedded_detail_exhausted m) as [[|]|]; reflexivity.
Qed.

Lemma catch_block_fired retry w error :
  catch_block retry w error =
  match fired error with
  | Some _ => switch_and_retry retry w
  | None => Some (w, Resolved (plain_failure error))
  end.
Proof.
  destruct error as [| |o]; try reflexivity.
  unfold catch_block, fired.
  destruct (match status o, body o with
            | Some st, Some b => _
            | _, _ => false
            end); [reflexivity|].
  destruct (message_in o) as [m|]; [|reflexivity].
  destruct (includes m "403" && includes m balance_fragment); [reflexivity|].
  destruct (embedded_detail_exhausted m) as [[|]|]; reflexivity.
Qed.

End Dispatcher.

Section Detection.
Context `{Host} `{KeyManager}.

(** C2 (as amended): a failure is tested against three signals in a fixed
    order, and the first that matches decides: (a) a structured error of status
    403 whose body detail is a string containing "Exhausted balance"; (b) a
    message containing "403" and the fragment; (c) a JSON value extracted from
    the message whose detail contains the fragment. The block of the catch
    clause that is reached is the one of the first matching signal; the key
    manager is then consulted through that one block, and a failure that
    matches no signal becomes a plain failure. *)
Theorem detection_in_fixed_order fuel w model input apiKey error :
  fired error = first_match error /\
  (forall retry w1,
     catch_block retry w1 error =
     match first_match error with
     | Some _ => switch_and_retry retry w1
     | None => Some (w1, Resolved (plain_failure error))
     end) /\
  generateImage (S fuel) w model input apiKey =
  match log_start input with
  | Some thrown => Some (w, Rejected thrown)
  | None =>
      match try_block w model input apiKey with
      | (w1, inr response) => Some (w1, Resolved response)
      | (w1, inl failure) =>
          match first_match failure with
          | Some _ => switch_and_retry (retry_with fuel model input) w1
          | None => Some (w1, Resolved (plain_failure failure))
          end
      end
  end.
Proof.
  split; [apply fired_first_match|]. split.
  - intros retry w1. rewrite catch_block_fired, fired_first_match. reflexivity.
  - rewrite generateImage_step.
    destruct (log_start input); [reflexivity|].
    destruct (try_block w model input apiKey) as [w1 [failure|response]]; [|reflexivity].
    rewrite catch_block_fired, fired_first_match. reflexivity.
Qed.

End Detection.

(** C2 (as stated) fails: signal (a), read as "a structured error body whose
    detail contains the fragment", matches the error [locked_500] of the fixtures, yet the
    dispatcher does not consult the key manager and returns a plain failure. *)
Lemma detection_ignores_status_fails :
  let host := Fixtures.host (fun _ _ => Threw Fixtures.locked_500) in
  let w := Fixtures.world (Fixtures.store ["k0"; "k1"] 0) in
  first_match_as_claimed (H := host) Fixtures.locked_500 = Some StructuredBody /\
  first_match (H := host) Fixtures.locked_500 = None /\
  generateImage (H := host) (H0 := RotationPolicy.manager) 3 w Fixtures.flux Fixtures.a_cat "k0" =
  Some (emit (EvSubscribe {| call_model := "fal-ai/flux-pro/v1.1";
                             call_input := Fixtures.a_cat;
                             call_credentials := "k0" |}) w,
        Resolved (Failure "Internal Server Error" None)).
Proof. repeat split; vm_compute; reflexivity. Qed.

Section Failures.
Context `{Host} `{KeyManager}.

Lemma try_block_missing_key w model input :
  try_block w model input "" = (w, inl (Error missing_key_message)).
Proof. reflexivity. Qed.

Lemma try_block_world w model input apiKey :
  apiKey <> "" ->
  (try_block w model input apiKey).1 = emit (EvSubscribe (sent model input apiKey)) w.
Proof.
  intros Hkey. unfold try_block.
  destruct (String.eqb_spec apiKey ""); [contradiction|].
  destruct (fal_subscribe _ _ _ _) as [result|error]; [|reflexivity].
  destruct (result_data result ≫= data_images) as [[|img imgs]|]; reflexivity.
Qed.

Lemma try_block_storage w model input apiKey :
  storage (try_block w model input apiKey).1 = storage w.
Proof.
  destruct (String.eqb_spec apiKey "") as [->|Hkey]; [reflexivity|].
  rewrite try_block_world by assumption. reflexivity.
Qed.

Lemma try_block_no_images w model input apiKey result :
  apiKey <> "" ->
  fal_subscribe (length (calls (trace w))) (id model) input apiKey = Completed result ->
  result_data result ≫= data_images = None \/ result_data result ≫= data_images = Some [] ->
  try_block w model input apiKey =
  (emit (EvSubscribe (sent model input apiKey)) w, inl (Error no_images_message)).
Proof.
  intros Hkey Hout Himgs. unfold try_block.
  destruct (String.eqb_spec apiKey ""); [contradiction|].
  rewrite Hout. destruct Himgs as [-> | ->]; reflexivity.
Qed.

Lemma first_match_no_images : first_match (Error no_images_message) = None.
Proof. reflexivity. Qed.

Lemma first_match_missing_key : first_match (Error missing_key_message) = None.
Proof. reflexivity. Qed.

Lemma generateImage_plain fuel w model input apiKey w1 failure :
  log_start input = None ->
  try_block w model input apiKey = (w1, inl failure) ->
  first_match failure = None ->
  generateImage (S fuel) w model input apiKey =
  Some (w1, Resolved (Failure (error_text failure) None)).
Proof.
  intros Hlog Htry Hnone.
  rewrite generateImage_step, Hlog, Htry, catch_block_fired, fired_first_match, Hnone.
  reflexivity.
Qed.

Lemma generateImage_switch fuel w model input apiKey w1 failure :
  log_start input = None ->
  try_block w model input apiKey = (w1, inl failure) ->
  is_Some (first_match failure) ->
  generateImage (S fuel) w model input apiKey =
  switch_and_retry (retry_with fuel model input) w1.
Proof.
  intros Hlog Htry [s Hs].
  rewrite generateImage_step, Hlog, Htry, catch_block_fired, fired_first_match, Hs.
  reflexivity.
Qed.

(** C5: a failure that matches no balance signal is returned as a failure
    that carries the text of the error ([error.message] of an [Error], the
    generic text otherwise) and no error code; the key manager is not consulted,
    storage is left as it was and there is no second outbound call. *)
Theorem unmatched_failure_is_reported fuel w model input apiKey w1 failure :
  log_start input = None ->
  try_block w model input apiKey = (w1, inl failure) ->
  first_match failure = None ->
  generateImage (S fuel) w model input apiKey =
    Some (w1, Resolved (Failure (error_text failure) None)) /\
  storage w1 = storage w /\
  (w1 = w \/ w1 = emit (EvSubscribe (sent model input apiKey)) w) /\
  (forall m, failure = Error m -> error_text failure = m).
Proof.
  intros Hlog Htry Hnone. split; [|split; [|split]].
  - eapply generateImage_plain; eassumption.
  - rewrite <- (try_block_storage w model input apiKey), Htry. reflexivity.
  - destruct (String.eqb_spec apiKey "") as [->|Hkey].
    + left. rewrite try_block_missing_key in Htry. congruence.
    + right. rewrite <- (try_block_world w model input apiKey Hkey), Htry. reflexivity.
  - intros m ->. reflexivity.
Qed.

(** C6: an outbound call that completes without images (no image list, or an
    empty one) is returned as a failure with the text "未生成图像" and no error
    code, after that one call and without consulting the key manager. *)
Theorem empty_result_is_failure fuel w model input apiKey result :
  log_start input = None ->
  apiKey <> "" ->
  fal_subscribe (length (calls (trace w))) (id model) input apiKey = Completed result ->
  result_data result ≫= data_images = None \/ result_data result ≫= data_images = Some [] ->
  generateImage (S fuel) w model input apiKey =
  Some (emit (EvSubscribe (sent model input apiKey)) w,
        Resolved (Failure no_images_message None)).
Proof.
  intros Hlog Hkey Hout Himgs.
  apply generateImage_plain with (failure := Error no_images_message).
  - assumption.
  - apply try_block_no_images with (result := result); assumption.
  - apply first_match_no_images.
Qed.

(** C9: after a balance signal on which the key manager reports a switch, the
    retry is made with the string stored under "fal-ai-active-key" (the empty
    string when the slot is empty), whatever the key manager returned; with an
    empty slot the retry fails the missing-credential check and the result is a
    plain failure with the missing-key text and no error code. *)
Theorem retry_reads_active_key_slot fuel w model input apiKey w1 failure st :
  log_start input = None ->
  try_block w model input apiKey = (w1, inl failure) ->
  is_Some (first_match failure) ->
  handleBalanceExhaustedError (storage w1) = (true, st) ->
  let w2 := emit (EvRotate true) {| storage := st; trace := trace w1 |} in
  generateImage (S fuel) w model input apiKey =
    generateImage fuel w2 model input (default "" (active_key st)) /\
  (default "" (active_key st) = "" ->
   generateImage (S (S fuel)) w model input apiKey =
     Some (w2, Resolved (Failure missing_key_message None))).
Proof.
  intros Hlog Htry Hsig Hswitch w2. split.
  - rewrite (generateImage_switch _ _ _ _ _ _ _ Hlog Htry Hsig).
    unfold switch_and_retry. rewrite Hswitch. reflexivity.
  - intros Hempty.
    rewrite (generateImage_switch _ _ _ _ _ _ _ Hlog Htry Hsig).
    unfold switch_and_retry. rewrite Hswitch. unfold retry_with.
    rewrite Hempty.
    exact (generateImage_plain fuel _ model input "" w2 (Error missing_key_message)
             Hlog (try_block_missing_key w2 model input) first_match_missing_key).
Qed.

(** X1: a missing credential is reported at once: with an empty key
    [generateImage] returns a failure with the missing-key text and no error
    code, makes no outbound call and does not consult the key manager. *)
Theorem missing_credential_is_reported fuel w model input :
  log_start input = None ->
  generateImage (S fuel) w model input "" =
  Some (w, Resolved (Failure missing_key_message None)).
Proof.
  intros Hlog.
  exact (generateImage_plain fuel w model input "" w (Error missing_key_message)
           Hlog (try_block_missing_key w model input) first_match_missing_key).
Qed.

End Failures.

Section Settling.
Context `{Host} `{KeyManager}.

Lemma log_start_text input :
  input !! "prompt" = None \/ (exists s, input !! "prompt" = Some (JStr s)) ->
  log_start input = None.
Proof. unfold log_start. intros [-> | [s ->]]; reflexivity. Qed.

Lemma generateImage_settles (measure : Storage -> nat) :
  (forall st st', handleBalanceExhaustedError st = (true, st') -> measure st' < measure st) ->
  forall fuel w model input apiKey,
    log_start input = None ->
    measure (storage w) < fuel ->
    exists w' response,
      generateImage fuel w model input apiKey = Some (w', Resolved response).
Proof.
  intros Hdec fuel. induction fuel as [|fuel IH]; intros w model input apiKey Hlog Hfuel; [lia|].
  rewrite generateImage_step, Hlog.
  pose proof (try_block_storage w model input apiKey) as Hst.
  destruct (try_block w model input apiKey) as [w1 [failure|response]]; [|eauto].
  simpl in Hst. rewrite catch_block_fired.
  destruct (fired failure); [|eauto].
  unfold switch_and_retry.
  destruct (handleBalanceExhaustedError (storage w1)) as [[|] st] eqn:Hswitch; [|eauto].
  unfold retry_with. apply IH; [assumption|]. simpl.
  apply Hdec in Hswitch. rewrite Hst in Hswitch. lia.
Qed.

Lemma generateImage_never_rejects fuel model input :
  log_start input = None ->
  forall w apiKey w' settled,
    generateImage fuel w model input apiKey = Some (w', settled) ->
    exists response, settled = Resolved response.
Proof.
  intros Hlog. induction fuel as [|fuel IH]; intros w apiKey w' settled; [discriminate|].
  rewrite generateImage_step, Hlog.
  destruct (try_block w model input apiKey) as [w1 [failure|response]];
    [|intros [= <- <-]; eauto].
  rewrite catch_block_fired.
  destruct (fired failure); [|intros [= <- <-]; eauto].
  unfold switch_and_retry.
  destruct (handleBalanceExhaustedError (storage w1)) as [[|] st];
    [|intros [= <- <-]; eauto].
  unfold retry_with. apply IH.
Qed.

(** C3: for every model and credential, every parameter bag of a generation
    request (its prompt a string; an absent prompt is covered too) and every
    outcome of the outbound calls, no error leaves [generateImage] as a
    rejection: whatever it returns is a response, a success or a failure, and
    this with any key manager. And it does return one with a key manager that
    advances as the rotation policy does, so that it cannot report a switch for
    ever: each switch lowers a measure of the storage. *)
Theorem dispatch_resolves fuel w model input apiKey :
  input !! "prompt" = None \/ (exists s, input !! "prompt" = Some (JStr s)) ->
  (forall w' settled,
     generateImage fuel w model input apiKey = Some (w', settled) ->
     exists response, settled = Resolved response) /\
  (forall measure : Storage -> nat,
     (forall st st', handleBalanceExhaustedError st = (true, st') -> measure st' < measure st) ->
     measure (storage w) < fuel ->
     exists w' response,
       generateImage fuel w model input apiKey = Some (w', Resolved response)).
Proof.
  intros Hprompt%log_start_text. split.
  - intros w' settled. apply generateImage_never_rejects. exact Hprompt.
  - intros measure Hdec Hfuel.
    apply generateImage_settles with (measure := measure); assumption.
Qed.

End Settling.

(** ** The dispatcher with the rotation policy of the specification *)
Section Rotation.
Context `{Host}.
Import RotationPolicy.

Lemma advance_some st credential st' :
  advance st = (Some credential, st') ->
  active_key st' = Some credential /\
  api_keys st' = api_keys st /\
  remaining st = credential :: remaining st'.
Proof.
  unfold advance, remaining.
  set (next := (default (-1) (active_key_index st) + 1)%Z).
  destruct (0 <=? next)%Z eqn:Hnext; [|discriminate].
  destruct (api_keys st !! Z.to_nat next) as [c|] eqn:Hc; [|discriminate].
  intros [= <- <-]. simpl. repeat split.
  assert (Hpos : (0 <= next)%Z) by lia.
  replace (0 <=? next + 1)%Z with true by lia.
  replace (Z.to_nat (next + 1)) with (S (Z.to_nat next)) by lia.
  apply drop_S. assumption.
Qed.

Lemma advance_getActive st credential st' :
  advance st = (Some credential, st') -> getActive st' = Some credential.
Proof.
  unfold advance, getActive.
  set (next := (default (-1) (active_key_index st) + 1)%Z).
  destruct (0 <=? next)%Z eqn:Hnext; [|discriminate].
  destruct (api_keys st !! Z.to_nat next) as [c|] eqn:Hc; [|discriminate].
  intros [= <- <-]. simpl. rewrite Hnext. exact Hc.
Qed.

Lemma advance_none st st' :
  advance st = (None, st') -> remaining st = [].
Proof.
  unfold advance, remaining.
  set (next := (default (-1) (active_key_index st) + 1)%Z).
  destruct (0 <=? next)%Z eqn:Hnext; [|reflexivity].
  destruct (api_keys st !! Z.to_nat next) as [c|] eqn:Hc; [discriminate|].
  intros _. apply drop_ge. apply lookup_ge_None. assumption.
Qed.

Lemma manager_switch st st' :
  handleBalanceExhaustedError (KeyManager := manager) st = (true, st') ->
  exists credential, advance st = (Some credential, st').
Proof.
  simpl. destruct (advance st) as [[c|] st1]; simpl; [|discriminate].
  intros [= <-]. exists c. reflexivity.
Qed.

Lemma manager_measure st st' :
  handleBalanceExhaustedError (KeyManager := manager) st = (true, st') ->
  length (remaining st') < length (remaining st).
Proof.
  intros (c & Hadv)%manager_switch.
  apply advance_some in Hadv as (_ & _ & ->). simpl. lia.
Qed.

Lemma calls_emit_subscribe w c :
  calls (trace (emit (EvSubscribe c) w)) = (calls (trace w) ++ [c])%list.
Proof. unfold calls. simpl. rewrite omap_app. reflexivity. Qed.

Lemma generateImage_calls fuel model input :
  forall w apiKey w' settled,
    generateImage (H0 := manager) fuel w model input apiKey = Some (w', settled) ->
    exists made,
      calls (trace w') = (calls (trace w) ++ made)%list /\
      call_credentials <$> made `prefix_of` apiKey :: remaining (storage w) /\
      Forall (fun c => call_model c = id model /\ call_input c = input) made.
Proof.
  induction fuel as [|fuel IH]; intros w apiKey w' settled; [discriminate|].
  assert (Hnone : exists made : list Call,
             calls (trace w) = (calls (trace w) ++ made)%list /\
             call_credentials <$> made `prefix_of` apiKey :: remaining (storage w) /\
             Forall (fun c => call_model c = id model /\ call_input c = input) made).
  { exists []. rewrite app_nil_r. split; [reflexivity|]. split; [apply prefix_nil|constructor]. }
  rewrite generateImage_step.
  destruct (log_start input); [intros [= <- <-]; exact Hnone|].
  destruct (String.eqb_spec apiKey "") as [->|Hkey].
  { rewrite try_block_missing_key. simpl. intros [= <- <-]. exact Hnone. }
  pose proof (try_block_world w model input apiKey Hkey) as Hw1.
  assert (Hone : forall w2, calls (trace w2) = (calls (trace w) ++ [sent model input apiKey])%list ->
             exists made : list Call,
               calls (trace w2) = (calls (trace w) ++ made)%list /\
               call_credentials <$> made `prefix_of` apiKey :: remaining (storage w) /\
               Forall (fun c => call_model c = id model /\ call_input c = input) made).
  { intros w2 Hw2. exists [sent model input apiKey]. split; [assumption|].
    split; [|repeat constructor].
    apply prefix_cons, prefix_nil. }
  destruct (try_block w model input apiKey) as [w1 [failure|response]]; simpl in Hw1; subst w1.
  2:{ intros [= <- <-]. apply Hone, calls_emit_subscribe. }
  rewrite catch_block_fired.
  destruct (fired failure).
  2:{ intros [= <- <-]. apply Hone, calls_emit_subscribe. }
  unfold switch_and_retry.
  destruct (handleBalanceExhaustedError _) as [[|] st] eqn:Hswitch.
  2:{ intros [= <- <-]. apply Hone. unfold calls. simpl. rewrite !omap_app. simpl.
      rewrite app_nil_r. reflexivity. }
  apply manager_switch in Hswitch as (c & Hadv).
  apply advance_some in Hadv as (Hslot & _ & Hrem). simpl in Hrem.
  unfold retry_with. rewrite Hslot. simpl default.
  intros Hrun. apply IH in Hrun as (made & Hcalls & Hprefix & Hall).
  exists (sent model input apiKey :: made). split; [|split].
  - rewrite Hcalls. unfold calls. simpl. rewrite !omap_app. simpl.
    rewrite app_nil_r, <- app_assoc. reflexivity.
  - rewrite Hrem. simpl. apply prefix_cons. exact Hprefix.
  - constructor; [split; reflexivity|assumption].
Qed.

End Rotation.

Section RotationClaim.
Context `{Host}.
Import RotationPolicy.

(** C1: on a failure that matches a balance signal the dispatcher calls
    [advance()] of the rotation policy. If that returns a credential, the
    dispatcher calls itself with it and with the same model and parameters; if
    none remains, the result is a failure with code "ALL_KEYS_EXHAUSTED". The
    dispatcher returns within as many retries as credentials remain after the
    active one, and the credentials it sends are, in order, its own and then
    the remaining entries of the list, each entry at most once. *)
Theorem rotation_on_balance_exhaustion fuel w model input apiKey w1 failure :
  log_start input = None ->
  try_block w model input apiKey = (w1, inl failure) ->
  is_Some (first_match failure) ->
  match advance (storage w1) with
  | (Some credential, st) =>
      generateImage (H0 := manager) (S fuel) w model input apiKey =
      generateImage (H0 := manager) fuel
        (emit (EvRotate true) {| storage := st; trace := trace w1 |}) model input credential
  | (None, st) =>
      generateImage (H0 := manager) (S fuel) w model input apiKey =
      Some (emit (EvRotate false) {| storage := st; trace := trace w1 |},
            Resolved (Failure all_keys_exhausted_message (Some "ALL_KEYS_EXHAUSTED")))
  end /\
  (exists w' response,
     generateImage (H0 := manager) (S (length (remaining (storage w)))) w model input apiKey =
     Some (w', Resolved response)) /\
  (forall n w' settled,
     generateImage (H0 := manager) n w model input apiKey = Some (w', settled) ->
     exists made,
       calls (trace w') = (calls (trace w) ++ made)%list /\
       call_credentials <$> made `prefix_of` apiKey :: remaining (storage w) /\
       Forall (fun c => call_model c = id model /\ call_input c = input) made /\
       (NoDup (api_keys (storage w)) -> NoDup (tail (call_credentials <$> made)))).
Proof.
  intros Hlog Htry Hsig. split; [|split].
  - rewrite (generateImage_switch _ _ _ _ _ _ _ Hlog Htry Hsig).
    unfold switch_and_retry. simpl handleBalanceExhaustedError.
    destruct (advance (storage w1)) as [[credential|] st] eqn:Hadv; simpl.
    + apply advance_some in Hadv as (Hslot & _ & _).
      unfold retry_with. rewrite Hslot. reflexivity.
    + reflexivity.
  - apply generateImage_settles with (measure := fun st => length (remaining st)).
    + intros st st'. apply manager_measure.
    + assumption.
    + lia.
  - intros n w' settled Hrun.
    apply generateImage_calls in Hrun as (made & Hcalls & Hprefix & Hall).
    exists made. repeat split; try assumption.
    intros Hnodup.
    assert (Hrem : NoDup (remaining (storage w))).
    { unfold remaining. destruct (0 <=? _)%Z; [|constructor].
      eapply sublist_NoDup; [exact Hnodup|apply sublist_drop]. }
    destruct Hprefix as [rest Hrest].
    destruct (call_credentials <$> made) as [|c creds]; [constructor|].
    simpl in *. injection Hrest as _ Hrest.
    rewrite Hrest in Hrem. apply NoDup_app in Hrem. tauto.
Qed.

End RotationClaim.

(** ** Preparing the parameters *)
Section Parameters.
Context `{Host}.

Lemma truthy_above_4 n : (4 < n)%Z -> truthy (JNum n) && gt (JNum n) 4 = true.
Proof. intros Hn. simpl. apply andb_true_intro. split; [apply negb_true_iff|]; lia. Qed.

Lemma not_above_4 n : (n <= 4)%Z -> truthy (JNum n) && gt (JNum n) 4 = false.
Proof. intros Hn. simpl. apply andb_false_intro2. lia. Qed.

(** C4: clamping a parameter bag whose [num_images] is a number above 4 gives
    a bag whose [num_images] is 4; a bag whose [num_images] is a number that is
    at most 4, or that has no [num_images], is returned as it is. In any case no
    other field changes, and [num_images] is either as it was or 4. *)
Theorem num_images_is_clamped (params : gmap string JsVal) :
  (forall n, params !! "num_images" = Some (JNum n) -> (4 < n)%Z ->
     ensureValidNumImages params !! "num_images" = Some (JNum 4)) /\
  (forall n, params !! "num_images" = Some (JNum n) -> (n <= 4)%Z ->
     ensureValidNumImages params = params) /\
  (params !! "num_images" = None -> ensureValidNumImages params = params) /\
  (forall k, k <> "num_images" -> ensureValidNumImages params !! k = params !! k) /\
  (ensureValidNumImages params !! "num_images" = params !! "num_images" \/
   ensureValidNumImages params !! "num_images" = Some (JNum 4)).
Proof.
  unfold ensureValidNumImages. repeat split.
  - intros n -> Hn. rewrite truthy_above_4 by assumption. apply lookup_insert_eq.
  - intros n -> Hn. rewrite not_above_4 by assumption. reflexivity.
  - intros ->. reflexivity.
  - intros k Hk. destruct (params !! "num_images") as [v|]; [|reflexivity].
    destruct (truthy v && gt v 4); [|reflexivity].
    apply lookup_insert_ne. congruence.
  - destruct (params !! "num_images") as [v|] eqn:Hv; [|left; assumption].
    destruct (truthy v && gt v 4); [right; apply lookup_insert_eq|left; assumption].
Qed.

End Parameters.

Lemma num_images_is_clamped_witness :
  let host := Fixtures.funds [] None in
  ensureValidNumImages (H := host) {[ "num_images" := JNum 7; "prompt" := JStr "a cat" ]}
    !! "num_images" = Some (JNum 4) /\
  ensureValidNumImages (H := host) {[ "num_images" := JNum 3 ]} = {[ "num_images" := JNum 3 ]}.
Proof.
  intros host. split.
  - apply (proj1 (num_images_is_clamped (H := host) _) 7%Z); [reflexivity|lia].
  - apply (proj1 (proj2 (num_images_is_clamped (H := host) _)) 3%Z); [reflexivity|lia].
Defined.

(** ** White space *)

Lemma ws2_not_ws1 a b : ws2 a b = true -> ws1 a = false.
Proof.
  unfold ws2, ws1. intros [Ha _]%andb_true_iff. apply N.eqb_eq in Ha.
  rewrite Ha. reflexivity.
Qed.

Lemma ws3_lead a b c :
  ws3 a b c = true -> byte a = 225%N \/ byte a = 226%N \/ byte a = 227%N \/ byte a = 239%N.
Proof.
  unfold ws3. cbv zeta.
  repeat rewrite orb_true_iff. repeat rewrite andb_true_iff.
  repeat rewrite N.eqb_eq. tauto.
Qed.

Lemma ws3_not_ws1 a b c : ws3 a b c = true -> ws1 a = false.
Proof.
  intros Hl%ws3_lead. unfold ws1.
  destruct Hl as [-> | [-> | [-> | ->]]]; reflexivity.
Qed.

Lemma ws3_not_ws2 a b c : ws3 a b c = true -> ws2 a b = false.
Proof.
  intros Hl%ws3_lead. unfold ws2.
  destruct Hl as [-> | [-> | [-> | ->]]]; reflexivity.
Qed.

Lemma trim_start_white t s : WhiteSpace t -> trim_start (t ++ s) = trim_start s.
Proof.
  intros [a Ha | a b Hab | a b c Habc]; simpl.
  - rewrite Ha. reflexivity.
  - rewrite (ws2_not_ws1 _ _ Hab), Hab. reflexivity.
  - rewrite (ws3_not_ws1 _ _ _ Habc), (ws3_not_ws2 _ _ _ Habc), Habc. reflexivity.
Qed.

Lemma only1 a s : ws1 a = true -> WhitespaceOnly s -> WhitespaceOnly (String a s).
Proof. intros Ha Hs. apply (only_more (String a "") s); [constructor|]; assumption. Qed.

Lemma only2 a b s :
  ws2 a b = true -> WhitespaceOnly s -> WhitespaceOnly (String a (String b s)).
Proof.
  intros Hab Hs. apply (only_more (String a (String b "")) s); [constructor|]; assumption.
Qed.

Lemma only3 a b c s :
  ws3 a b c = true -> WhitespaceOnly s -> WhitespaceOnly (String a (String b (String c s))).
Proof.
  intros Habc Hs.
  apply (only_more (String a (String b (String c ""))) s); [constructor|]; assumption.
Qed.

Lemma append_cons a s t : String a s ++ t = String a (s ++ t).
Proof. reflexivity. Qed.

Lemma append_empty_r s : s ++ "" = s.
Proof. induction s as [|c s IH]; [reflexivity|]. rewrite append_cons, IH. reflexivity. Qed.

(** [trim_start] strips white space and stops where none begins. *)
Lemma trim_start_split s :
  exists blanks, WhitespaceOnly blanks /\ s = blanks ++ trim_start s /\
                 trim_start (trim_start s) = trim_start s.
Proof.
  remember (String.length s) as n eqn:Hn.
  revert s Hn. induction n as [n IH] using lt_wf_ind. intros s Hn.
  assert (Hstop : trim_start s = s ->
            exists blanks, WhitespaceOnly blanks /\ s = blanks ++ trim_start s /\
                           trim_start (trim_start s) = trim_start s).
  { intros Hs. exists "". rewrite !Hs. repeat split. constructor. }
  destruct s as [|a r1]; [apply Hstop; reflexivity|].
  destruct (ws1 a) eqn:Ha.
  { destruct (IH (String.length r1)) with (s := r1) as (bl & Hbl & Heq & Hfix);
      [simpl in Hn; lia|reflexivity|].
    exists (String a bl). simpl trim_start. rewrite Ha, append_cons, <- Heq.
    auto using only1. }
  destruct r1 as [|b r2]; [apply Hstop; simpl; rewrite Ha; reflexivity|].
  destruct (ws2 a b) eqn:Hab.
  { destruct (IH (String.length r2)) with (s := r2) as (bl & Hbl & Heq & Hfix);
      [simpl in Hn; lia|reflexivity|].
    exists (String a (String b bl)). simpl trim_start.
    rewrite Ha, Hab, !append_cons, <- Heq. auto using only2. }
  destruct r2 as [|c r3]; [apply Hstop; simpl; rewrite Ha, Hab; reflexivity|].
  destruct (ws3 a b c) eqn:Habc.
  { destruct (IH (String.length r3)) with (s := r3) as (bl & Hbl & Heq & Hfix);
      [simpl in Hn; lia|reflexivity|].
    exists (String a (String b (String c bl))). simpl trim_start.
    rewrite Ha, Hab, Habc, !append_cons, <- Heq. auto using only3. }
  apply Hstop. simpl. rewrite Ha, Hab, Habc. reflexivity.
Qed.

Lemma trim_start_idempotent s : trim_start (trim_start s) = trim_start s.
Proof. destruct (trim_start_split s) as (_ & _ & _ & Hfix). exact Hfix. Qed.

Lemma trim_start_only s : WhitespaceOnly s -> trim_start s = "".
Proof.
  induction 1 as [|t s Ht Hs IH]; [reflexivity|].
  rewrite trim_start_white; assumption.
Qed.

(** [blank] decides [WhitespaceOnly]. *)
Lemma blank_spec s : blank s = true <-> WhitespaceOnly s.
Proof.
  unfold blank. split.
  - intros Hb%String.eqb_eq.
    destruct (trim_start_split s) as (bl & Hbl & Heq & _).
    rewrite Hb, append_empty_r in Heq. rewrite Heq. assumption.
  - intros Ho. rewrite trim_start_only by assumption. reflexivity.
Qed.

Lemma trim_end_empty s : (trim_end s =? "") = (s =? "") || blank s.
Proof.
  destruct s as [|a rest]; [reflexivity|].
  simpl trim_end. destruct (blank (String a rest)); reflexivity.
Qed.

(** [s.trim() === ''] exactly for the empty string and white space only. *)
Lemma trim_empty s : (trim s =? "") = blank s.
Proof.
  unfold trim. rewrite trim_end_empty. unfold blank at 1.
  rewrite trim_start_idempotent. fold (blank s). apply orb_diag.
Qed.

(** ** What a run appends to the trace *)

Lemma calls_app t1 t2 : calls (t1 ++ t2) = (calls t1 ++ calls t2)%list.
Proof. apply omap_app. Qed.

Lemma saved_app t1 t2 : saved (t1 ++ t2) = (saved t1 ++ saved t2)%list.
Proof. apply omap_app. Qed.

Lemma saved_dispatch model input evs :
  Forall (dispatch_event model input) evs -> saved evs = [].
Proof.
  induction 1 as [|e evs He _ IH]; [reflexivity|].
  destruct e; simpl in He; try contradiction; exact IH.
Qed.

Lemma calls_dispatch model input evs :
  Forall (dispatch_event model input) evs ->
  Forall (fun c => call_model c = id model /\ call_input c = input) (calls evs).
Proof.
  induction 1 as [|e evs He _ IH]; [constructor|].
  destruct e; simpl in He; try contradiction; [constructor; assumption|exact IH].
Qed.

Lemma saved_page evs : Forall page_event evs -> saved evs = [].
Proof.
  induction 1 as [|e evs He _ IH]; [reflexivity|].
  destruct e; simpl in He; try contradiction; exact IH.
Qed.

Lemma calls_page evs : Forall page_event evs -> calls evs = [].
Proof.
  induction 1 as [|e evs He _ IH]; [reflexivity|].
  destruct e; simpl in He; try contradiction; exact IH.
Qed.

Lemma saved_saves gs : saved (EvSave <$> gs) = gs.
Proof. induction gs as [|g gs IH]; [reflexivity|]. simpl. f_equal. exact IH. Qed.

Lemma calls_saves gs : calls (EvSave <$> gs) = [].
Proof. induction gs as [|g gs IH]; [reflexivity|exact IH]. Qed.

Section Traces.
Context `{Host} `{KeyManager} `{Persistence}.

Lemma generateImage_trace fuel model input :
  forall w apiKey w' settled,
    generateImage fuel w model input apiKey = Some (w', settled) ->
    exists evs, trace w' = (trace w ++ evs)%list /\ Forall (dispatch_event model input) evs.
Proof.
  induction fuel as [|fuel IH]; intros w apiKey w' settled; [discriminate|].
  assert (Hnone : exists evs, trace w = (trace w ++ evs)%list /\
                              Forall (dispatch_event model input) evs).
  { exists []. rewrite app_nil_r. split; [reflexivity|constructor]. }
  rewrite generateImage_step.
  destruct (log_start input); [intros [= <- <-]; exact Hnone|].
  destruct (String.eqb_spec apiKey "") as [->|Hkey].
  { rewrite try_block_missing_key. simpl. intros [= <- <-]. exact Hnone. }
  pose proof (try_block_world w model input apiKey Hkey) as Hw1.
  assert (Hone : exists evs,
             trace (emit (EvSubscribe (sent model input apiKey)) w) = (trace w ++ evs)%list /\
             Forall (dispatch_event model input) evs).
  { exists [EvSubscribe (sent model input apiKey)]. split; [reflexivity|].
    repeat constructor. }
  destruct (try_block w model input apiKey) as [w1 [failure|response]]; simpl in Hw1; subst w1.
  2:{ intros [= <- <-]. exact Hone. }
  rewrite catch_block_fired.
  destruct (fired failure).
  2:{ intros [= <- <-]. exact Hone. }
  unfold switch_and_retry.
  destruct (handleBalanceExhaustedError _) as [switched st].
  assert (Htwo : exists evs,
             trace (emit (EvRotate switched)
                      {| storage := st;
                         trace := trace (emit (EvSubscribe (sent model input apiKey)) w) |}) =
             (trace w ++ evs)%list /\
             Forall (dispatch_event model input) evs).
  { exists [EvSubscribe (sent model input apiKey); EvRotate switched].
    split; [simpl; rewrite <- app_assoc; reflexivity|repeat constructor]. }
  destruct switched.
  2:{ intros [= <- <-]. exact Htwo. }
  intros Hrun. apply IH in Hrun as (evs & Htrace & Hall).
  destruct Htwo as (evs2 & Htrace2 & Hall2).
  exists (evs2 ++ evs)%list. split.
  - rewrite Htrace, Htrace2, app_assoc. reflexivity.
  - apply Forall_app. split; assumption.
Qed.

Lemma foldl_emit_save w gs :
  foldl (fun w g => emit (EvSave g) w) w gs =
  {| storage := storage w; trace := trace w ++ (EvSave <$> gs) |}.
Proof.
  revert w. induction gs as [|g gs IH]; intros w.
  - simpl. rewrite app_nil_r. destruct w; reflexivity.
  - simpl. rewrite IH. simpl. rewrite <- app_assoc. reflexivity.
Qed.

Lemma generate_catch_trace w error :
  storage (generate_catch w error).1 = storage w /\
  exists evs, trace (generate_catch w error).1 = (trace w ++ evs)%list /\
              Forall page_event evs.
Proof.
  destruct error as [| |o]; simpl.
  - split; [reflexivity|]. exists []. rewrite app_nil_r. split; [reflexivity|constructor].
  - split; [reflexivity|]. eexists. split; [reflexivity|repeat constructor].
  - destruct (_ && _); simpl; (split; [reflexivity|]).
    + eexists [_; _]. split; [rewrite <- app_assoc; reflexivity|repeat constructor].
    + eexists. split; [reflexivity|repeat constructor].
Qed.

End Traces.

(** ** Recording the results *)
Section Records.
Context `{Host} `{KeyManager} `{Persistence}.

Lemma fmap_imap_const {A B C} (g : B -> C) (h : A -> C) (l : list A) :
  forall f : nat -> A -> B,
    (forall i x, g (f i x) = h x) -> g <$> imap f l = h <$> l.
Proof.
  induction l as [|x l IH]; intros f Hf; [reflexivity|].
  simpl. rewrite Hf. f_equal. apply IH. intros i y. apply Hf.
Qed.

Lemma savePromises_images model ui allParameters r n :
  output_images <$> savePromises model ui allParameters r n =
  (fun image => [image]) <$> images r.
Proof. apply fmap_imap_const. reflexivity. Qed.

Lemma savePromises_length model ui allParameters r n :
  length (savePromises model ui allParameters r n) = length (images r).
Proof. apply length_imap. Qed.

Lemma first_rejection_none outcomes :
  first_rejection outcomes = None <-> Forall (fun o => o = Saved) outcomes.
Proof.
  induction outcomes as [|o outcomes IH]; simpl.
  - split; [constructor|reflexivity].
  - destruct o as [|t reason].
    + rewrite IH. split; [constructor; [reflexivity|assumption]|].
      intros Hall. inversion Hall. assumption.
    + split.
      * destruct (first_rejection outcomes) as [[t' reason']|]; [|discriminate].
        destruct (t' <? t)%nat; discriminate.
      * intros Hall. inversion Hall. discriminate.
Qed.

Lemma first_rejection_some outcomes t reason :
  first_rejection outcomes = Some (t, reason) -> SaveRejected t reason ∈ outcomes.
Proof.
  revert t reason. induction outcomes as [|o outcomes IH]; intros t reason; [discriminate|].
  simpl. destruct o as [|t0 reason0].
  - intros Hrest. right. apply IH. assumption.
  - destruct (first_rejection outcomes) as [[t' reason']|].
    + destruct (t' <? t0)%nat; intros [= <- <-]; [right; apply IH; reflexivity|left].
    + intros [= <- <-]. left.
Qed.

Lemma Promise_all_fulfilled (gs : list Generation) :
  Promise_all (saveGeneration <$> gs) = None <->
  Forall (fun g => saveGeneration g = Saved) gs.
Proof.
  unfold Promise_all.
  etransitivity; [apply fmap_None|].
  etransitivity; [apply first_rejection_none|]. apply Forall_fmap.
Qed.

Lemma Promise_all_rejected (gs : list Generation) reason :
  Promise_all (saveGeneration <$> gs) = Some reason ->
  exists g t, g ∈ gs /\ saveGeneration g = SaveRejected t reason.
Proof.
  unfold Promise_all. intros ([t reason'] & Hfirst & ->)%fmap_Some.
  apply first_rejection_some, list_elem_of_fmap in Hfirst as (g & Hg & Hin).
  exists g, t. split; [assumption|]. symmetry. assumption.
Qed.

Lemma handle_response_success model ui allParameters w r :
  let records := savePromises model ui allParameters r (length (saved (trace w))) in
  handle_response model ui allParameters w (Success r) =
  match Promise_all (saveGeneration <$> records) with
  | Some reason => (set_result (images r) ui, awaiting w records, inl reason)
  | None =>
      (set_result (images r) ui,
       emit (EvToastSuccess "图像生成成功" (seed r)) (awaiting w records), inr ())
  end.
Proof.
  intros records. unfold handle_response. fold records.
  rewrite foldl_emit_save.
  assert (Hw : emit EvAwaitAll
                 {| storage := storage w; trace := trace w ++ (EvSave <$> records) |} =
               awaiting w records).
  { unfold emit, awaiting. simpl. rewrite <- app_assoc. reflexivity. }
  rewrite Hw. destruct (Promise_all _); reflexivity.
Qed.

Lemma handleGenerate_success fuel model ui w allParameters apiKey st w2 r :
  trim (prompt ui) <> "" ->
  prepare_parameters (parameters ui) (prompt ui) = inr allParameters ->
  active_api_key (storage w) = (apiKey, st) ->
  apiKey <> "" ->
  generateImage fuel {| storage := st; trace := trace w |} model allParameters apiKey =
    Some (w2, Resolved (Success r)) ->
  let ui1 := set_result (images r) (set_generating true ui) in
  let records :=
    savePromises model (set_generating true ui) allParameters r (length (saved (trace w2))) in
  handleGenerate fuel model ui w =
  match Promise_all (saveGeneration <$> records) with
  | Some reason =>
      Some (set_generating false ui1,
            (generate_catch (awaiting w2 records) reason).1,
            (generate_catch (awaiting w2 records) reason).2)
  | None =>
      Some (set_generating false ui1,
            emit (EvToastSuccess "图像生成成功" (seed r)) (awaiting w2 records),
            Resolved ())
  end.
Proof.
  intros Hprompt Hprep Hkey Hnonempty Hrun ui1 records.
  unfold handleGenerate.
  destruct (String.eqb_spec (trim (prompt ui)) ""); [contradiction|].
  unfold generate_try. simpl prompt. simpl parameters.
  rewrite Hprep, Hkey.
  destruct (String.eqb_spec apiKey ""); [contradiction|].
  rewrite Hrun, handle_response_success. fold records.
  destruct (Promise_all _) as [reason|]; [|reflexivity].
  destruct (generate_catch _ reason); reflexivity.
Qed.

End Records.

Section Persisting.
Context `{Host} `{KeyManager} `{Persistence}.

Lemma saved_awaiting w records :
  saved (trace (awaiting w records)) = (saved (trace w) ++ records)%list.
Proof.
  unfold awaiting. simpl. rewrite !saved_app, saved_saves. simpl.
  rewrite app_nil_r. reflexivity.
Qed.

Lemma generateImage_saved fuel w model input apiKey w' settled :
  generateImage fuel w model input apiKey = Some (w', settled) ->
  saved (trace w') = saved (trace w).
Proof.
  intros (evs & -> & Hall)%generateImage_trace.
  rewrite saved_app, (saved_dispatch _ _ _ Hall). apply app_nil_r.
Qed.

(** C7: when the generation succeeds with N images, [saveGeneration] is called
    N times, once per image and in their order, and the record of each call
    holds exactly that one image. *)
Theorem one_record_per_image fuel model ui w allParameters apiKey st w2 r :
  trim (prompt ui) <> "" ->
  prepare_parameters (parameters ui) (prompt ui) = inr allParameters ->
  active_api_key (storage w) = (apiKey, st) ->
  apiKey <> "" ->
  generateImage fuel {| storage := st; trace := trace w |} model allParameters apiKey =
    Some (w2, Resolved (Success r)) ->
  exists ui' w' settled records,
    handleGenerate fuel model ui w = Some (ui', w', settled) /\
    saved (trace w') = (saved (trace w) ++ records)%list /\
    length records = length (images r) /\
    output_images <$> records = (fun image => [image]) <$> images r.
Proof.
  intros Hprompt Hprep Hkey Hnonempty Hrun.
  pose proof (handleGenerate_success _ _ _ _ _ _ _ _ _ Hprompt Hprep Hkey Hnonempty Hrun)
    as Hgen. cbv zeta in Hgen.
  apply generateImage_saved in Hrun as Hsaved. simpl in Hsaved.
  set (records := savePromises model (set_generating true ui) allParameters r
                    (length (saved (trace w2)))) in *.
  assert (Hrec : length records = length (images r) /\
                 output_images <$> records = (fun image => [image]) <$> images r).
  { split; [apply savePromises_length|apply savePromises_images]. }
  destruct (Promise_all (saveGeneration <$> records)) as [reason|].
  - destruct (generate_catch_trace (awaiting w2 records) reason) as (_ & evs & Htrace & Hpage).
    do 3 eexists. exists records. split; [exact Hgen|]. split; [|exact Hrec].
    rewrite Htrace, saved_app, saved_awaiting, (saved_page _ Hpage), app_nil_r, Hsaved.
    reflexivity.
  - do 3 eexists. exists records. split; [exact Hgen|]. split; [|exact Hrec].
    simpl trace. rewrite saved_app, saved_app, saved_app, saved_saves, Hsaved. simpl.
    rewrite !app_nil_r. reflexivity.
Qed.

Lemma generate_catch_reports w error :
  exists evs,
    trace (generate_catch w error).1 = (trace w ++ evs)%list /\
    Forall (fun e => ~ reports_success e) evs /\
    (((generate_catch w error).2 = Resolved () /\ Exists reports_failure evs) \/
     (exists e, (generate_catch w error).2 = Rejected e /\ evs = [])) /\
    (error = ThrownNullish -> exists e, (generate_catch w error).2 = Rejected e /\ evs = []).
Proof.
  destruct error as [| |o]; simpl.
  - exists []. rewrite app_nil_r. split; [reflexivity|]. split; [constructor|].
    split; [right|]; eauto.
  - eexists. split; [reflexivity|]. split; [|split; [|discriminate]].
    + constructor; [intros []|constructor].
    + left. split; [reflexivity|]. left. exact I.
  - destruct (_ && _); simpl.
    + eexists [_; _]. split; [rewrite <- app_assoc; reflexivity|].
      split; [|split; [|discriminate]].
      * repeat constructor; intros [].
      * left. split; [reflexivity|]. left. exact I.
    + eexists. split; [reflexivity|]. split; [|split; [|discriminate]].
      * constructor; [intros []|constructor].
      * left. split; [reflexivity|]. left. exact I.
Qed.

(** C8 (as amended): on success the images are displayed and every
    persistence call is started before any is awaited; the flow then awaits them
    all. Only when every call is fulfilled does it report success. When one is
    rejected the rejection reaches the catch clause of the flow and no success
    is reported: the flow either shows an error toast and returns, or, when the
    catch clause itself throws, rejects and shows nothing; it rejects when the
    reason of the call rejected first is [null] or [undefined]. *)
Theorem persistence_is_awaited fuel model ui w allParameters apiKey st w2 r :
  trim (prompt ui) <> "" ->
  prepare_parameters (parameters ui) (prompt ui) = inr allParameters ->
  active_api_key (storage w) = (apiKey, st) ->
  apiKey <> "" ->
  generateImage fuel {| storage := st; trace := trace w |} model allParameters apiKey =
    Some (w2, Resolved (Success r)) ->
  exists ui' w' settled records after,
    handleGenerate fuel model ui w = Some (ui', w', settled) /\
    result ui' = Some (images r) /\
    length records = length (images r) /\
    trace w' = (trace w2 ++ (EvSave <$> records) ++ EvAwaitAll :: after)%list /\
    (Forall (fun g => saveGeneration g = Saved) records ->
       after = [EvToastSuccess "图像生成成功" (seed r)] /\ settled = Resolved ()) /\
    (forall g t reason, g ∈ records -> saveGeneration g = SaveRejected t reason ->
       Forall (fun e => ~ reports_success e) after /\
       ((settled = Resolved () /\ Exists reports_failure after) \/
        (exists e, settled = Rejected e /\ after = []))) /\
    (Promise_all (saveGeneration <$> records) = Some ThrownNullish ->
       exists e, settled = Rejected e /\ after = []).
Proof.
  intros Hprompt Hprep Hkey Hnonempty Hrun.
  pose proof (handleGenerate_success _ _ _ _ _ _ _ _ _ Hprompt Hprep Hkey Hnonempty Hrun)
    as Hgen. cbv zeta in Hgen.
  set (records := savePromises model (set_generating true ui) allParameters r
                    (length (saved (trace w2)))) in *.
  destruct (Promise_all (saveGeneration <$> records)) as [reason|] eqn:Hall.
  - destruct (generate_catch_reports (awaiting w2 records) reason)
      as (evs & Htrace & Hno & Hcases & Hnull).
    do 3 eexists. exists records, evs. split; [exact Hgen|]. split; [reflexivity|].
    split; [apply savePromises_length|]. split; [|split; [|split]].
    + rewrite Htrace. simpl. rewrite <- !app_assoc. reflexivity.
    + intros Hsaved%Promise_all_fulfilled. congruence.
    + intros _ _ _ _ _. split; assumption.
    + intros Hfirst. rewrite Hall in Hfirst. apply Hnull. congruence.
  - do 3 eexists. exists records, [EvToastSuccess "图像生成成功" (seed r)].
    split; [exact Hgen|]. split; [reflexivity|].
    split; [apply savePromises_length|]. split; [|split; [|split]].
    + simpl. rewrite <- !app_assoc. reflexivity.
    + intros _. split; reflexivity.
    + intros g t reason Hg Hrej. apply Promise_all_fulfilled in Hall.
      rewrite Forall_forall in Hall. rewrite (Hall g Hg) in Hrej. discriminate.
    + intros Hfirst. rewrite Hall in Hfirst. discriminate.
Qed.

End Persisting.

(** ** LoRA entries *)

Section Loras.
Context `{Host} `{KeyManager} `{Persistence}.

Lemma lora_has_path_shape lora :
  lora_shape lora -> lora_has_path lora = Some (path_given lora).
Proof.
  intros [Hnull Hpath]. unfold lora_has_path, path_given. rewrite Hnull.
  destruct (field "path" lora) as [| |b|n|path|items|fs]; try reflexivity.
  - destruct b; [|reflexivity]. destruct Hpath as [p Hp]; [reflexivity|discriminate].
  - simpl in *. destruct (n =? 0)%Z; [reflexivity|].
    destruct Hpath as [p Hp]; [reflexivity|discriminate].
  - rewrite trim_empty. simpl. destruct (String.eqb_spec path "") as [->|Hne]; [reflexivity|].
    reflexivity.
  - destruct Hpath as [p Hp]; [reflexivity|discriminate].
  - destruct Hpath as [p Hp]; [reflexivity|discriminate].
Qed.

Lemma filter_loras_shape loras :
  Forall lora_shape loras -> filter_loras loras = Some (filter path_given loras).
Proof.
  induction 1 as [|lora loras Hlora _ IH]; [reflexivity|].
  simpl. rewrite (lora_has_path_shape _ Hlora), IH.
  rewrite filter_cons. destruct (path_given lora); reflexivity.
Qed.

Lemma path_given_spec lora :
  path_given lora = true <->
  exists path, field "path" lora = JStr path /\ ~ WhitespaceOnly path.
Proof.
  unfold path_given. split.
  - destruct (field "path" lora) as [| | | |path| |]; try discriminate.
    intros Hb%negb_true_iff. exists path. split; [reflexivity|].
    intros Hw%blank_spec. congruence.
  - intros (path & -> & Hw). apply negb_true_iff.
    destruct (blank path) eqn:Hb; [|reflexivity].
    apply blank_spec in Hb. contradiction.
Qed.

Lemma loras_untouched_by_clamp (bag : gmap string JsVal) text :
  ensureValidNumImages (<["prompt" := JStr text]> bag) !! "loras" = bag !! "loras".
Proof.
  unfold ensureValidNumImages.
  destruct (<["prompt" := JStr text]> bag !! "num_images") as [v|];
    [destruct (truthy v && gt v 4)|];
    rewrite ?lookup_insert_ne by discriminate; reflexivity.
Qed.

Lemma handle_response_calls model ui allParameters w response :
  calls (trace (handle_response model ui allParameters w response).1.2) = calls (trace w).
Proof.
  destruct response as [r|error errorCode].
  - rewrite handle_response_success. cbv zeta.
    destruct (Promise_all _); simpl; rewrite !calls_app, calls_saves; simpl;
      rewrite ?app_nil_r; reflexivity.
  - simpl. destruct (bool_decide _); simpl; rewrite calls_app; apply app_nil_r.
Qed.

Lemma generate_catch_calls w error :
  calls (trace (generate_catch w error).1) = calls (trace w).
Proof.
  destruct (generate_catch_trace w error) as (_ & evs & -> & Hpage).
  rewrite calls_app, (calls_page _ Hpage). apply app_nil_r.
Qed.

Lemma lora_has_path_some lora keep :
  lora_has_path lora = Some keep -> keep = path_given lora.
Proof.
  unfold lora_has_path, path_given.
  destruct (nullish lora); [discriminate|].
  destruct (field "path" lora) as [| |b|n|path|items|fs]; simpl;
    try (intros [= <-]; reflexivity); try discriminate.
  - destruct b; [discriminate|intros [= <-]; reflexivity].
  - destruct (n =? 0)%Z; [intros [= <-]; reflexivity|discriminate].
  - rewrite trim_empty. intros [= <-].
    destruct (String.eqb_spec path "") as [->|Hne]; reflexivity.
Qed.

Lemma filter_loras_some loras kept :
  filter_loras loras = Some kept -> kept = filter path_given loras.
Proof.
  revert kept. induction loras as [|lora loras IH]; intros kept; simpl.
  - intros [= <-]. reflexivity.
  - destruct (lora_has_path lora) as [keep|] eqn:Hkeep; [|discriminate].
    destruct (filter_loras loras) as [rest|]; [|discriminate].
    apply lora_has_path_some in Hkeep. intros [= <-].
    rewrite filter_cons, <- Hkeep, (IH rest eq_refl).
    destruct keep; reflexivity.
Qed.

Lemma handleGenerate_calls fuel model ui w ui' w' settled :
  handleGenerate fuel model ui w = Some (ui', w', settled) ->
  exists made,
    calls (trace w') = (calls (trace w) ++ made)%list /\
    match prepare_parameters (parameters ui) (prompt ui) with
    | inr allParameters =>
        Forall (fun c => call_model c = id model /\ call_input c = allParameters) made
    | inl _ => made = []
    end.
Proof.
  unfold handleGenerate.
  assert (Hnone : forall w0, calls (trace w0) = calls (trace w) ->
            exists made,
              calls (trace w0) = (calls (trace w) ++ made)%list /\
              match prepare_parameters (parameters ui) (prompt ui) with
              | inr allParameters =>
                  Forall (fun c => call_model c = id model /\ call_input c = allParameters) made
              | inl _ => made = []
              end).
  { intros w0 ->. exists []. rewrite app_nil_r. split; [reflexivity|].
    destruct (prepare_parameters _ _); [reflexivity|constructor]. }
  destruct (trim (prompt ui) =? "").
  { intros [= <- <- <-]. apply Hnone. simpl. rewrite calls_app. apply app_nil_r. }
  unfold generate_try. simpl prompt. simpl parameters.
  destruct (prepare_parameters (parameters ui) (prompt ui)) as [thrown|allParameters].
  { pose proof (generate_catch_calls w thrown) as Hcatch.
    destruct (generate_catch w thrown) as [w4 settled4]. simpl in Hcatch.
    intros [= <- <- <-]. apply Hnone. exact Hcatch. }
  destruct (active_api_key (storage w)) as [apiKey st].
  destruct (apiKey =? "").
  { intros [= <- <- <-]. apply Hnone. simpl. rewrite calls_app. apply app_nil_r. }
  destruct (generateImage fuel _ model allParameters apiKey) as [[w2 [response|error]]|] eqn:Hrun;
    [| |discriminate].
  - apply generateImage_trace in Hrun as (evs & Htrace & Hall). simpl in Htrace.
    pose proof (handle_response_calls model (set_generating true ui) allParameters w2 response)
      as Hcalls.
    destruct (handle_response _ _ _ w2 response) as [[ui1 w3] [reason|[]]]; simpl in Hcalls.
    + pose proof (generate_catch_calls w3 reason) as Hcatch.
      destruct (generate_catch w3 reason) as [w4 settled4]. simpl in Hcatch.
      intros [= <- <- <-]. exists (calls evs).
      rewrite Hcatch, Hcalls, Htrace, calls_app. split; [reflexivity|].
      eapply calls_dispatch. exact Hall.
    + intros [= <- <- <-]. exists (calls evs).
      rewrite Hcalls, Htrace, calls_app. split; [reflexivity|].
      eapply calls_dispatch. exact Hall.
  - apply generateImage_trace in Hrun as (evs & Htrace & Hall). simpl in Htrace.
    pose proof (generate_catch_calls w2 error) as Hcatch.
    destruct (generate_catch w2 error) as [w4 settled4]. simpl in Hcatch.
    intros [= <- <- <-]. exists (calls evs).
    rewrite Hcatch, Htrace, calls_app. split; [reflexivity|].
    eapply calls_dispatch. exact Hall.
Qed.

Lemma prepare_parameters_loras (bag : gmap string JsVal) text loras allParameters :
  bag !! "loras" = Some (JArr loras) ->
  prepare_parameters bag text = inr allParameters ->
  allParameters !! "loras" =
    match filter path_given loras with
    | [] => None
    | _ => Some (JArr (filter path_given loras))
    end /\
  (forall k, k <> "loras" ->
     allParameters !! k = ensureValidNumImages (<["prompt" := JStr text]> bag) !! k).
Proof.
  intros Hloras. unfold prepare_parameters.
  rewrite loras_untouched_by_clamp, Hloras.
  destruct (filter_loras loras) as [kept|] eqn:Hkept; [|discriminate].
  apply filter_loras_some in Hkept. rewrite <- Hkept.
  destruct kept as [|lora kept]; intros [= <-].
  - split; [apply lookup_delete_eq|]. intros k Hk. apply lookup_delete_ne. congruence.
  - split; [apply lookup_insert_eq|]. intros k Hk. apply lookup_insert_ne. congruence.
Qed.

(** C10: when the [loras] field of the parameters is an array, the bag that
    is dispatched holds, under [loras], the entries whose path is a string with
    something other than white space, in their original order: every entry
    whose path is missing, empty or white space only is gone. When no entry is
    left the bag has no [loras] key. Nothing else in the bag changes. (An entry
    that is [null], or whose path is neither a string nor falsy, makes the
    filter throw, and then nothing is dispatched.) *)
Theorem blank_loras_are_dropped (bag : gmap string JsVal) (text : string) loras :
  bag !! "loras" = Some (JArr loras) ->
  let kept := filter path_given loras in
  let dispatched := match kept with [] => None | _ => Some (JArr kept) end in
  kept `sublist_of` loras /\
  (forall lora, lora ∈ kept <->
     lora ∈ loras /\ exists path, field "path" lora = JStr path /\ ~ WhitespaceOnly path) /\
  (Forall lora_shape loras ->
     exists allParameters, prepare_parameters bag text = inr allParameters) /\
  (forall allParameters,
     prepare_parameters bag text = inr allParameters ->
     allParameters !! "loras" = dispatched /\
     forall k, k <> "loras" ->
       allParameters !! k = ensureValidNumImages (<["prompt" := JStr text]> bag) !! k) /\
  (forall fuel model ui w ui' w' settled,
     parameters ui = bag -> prompt ui = text ->
     handleGenerate fuel model ui w = Some (ui', w', settled) ->
     exists made,
       calls (trace w') = (calls (trace w) ++ made)%list /\
       Forall (fun c => call_input c !! "loras" = dispatched) made).
Proof.
  intros Hloras kept dispatched.
  split; [apply sublist_filter|]. split; [|split; [|split]].
  - intros lora. unfold kept. rewrite list_elem_of_filter, <- path_given_spec.
    unfold Is_true. destruct (path_given lora); intuition congruence.
  - intros Hshape. unfold prepare_parameters.
    rewrite loras_untouched_by_clamp, Hloras, (filter_loras_shape _ Hshape).
    destruct (filter path_given loras); eexists; reflexivity.
  - intros allParameters Hprep.
    exact (prepare_parameters_loras _ _ _ _ Hloras Hprep).
  - intros fuel model ui w ui' w' settled Hbag Htext Hrun.
    destruct (handleGenerate_calls _ _ _ _ _ _ _ Hrun) as (made & Hcalls & Hmade).
    exists made. split; [exact Hcalls|].
    rewrite Hbag, Htext in Hmade.
    destruct (prepare_parameters bag text) as [thrown|allParameters] eqn:Hprep.
    + subst made. constructor.
    + destruct (prepare_parameters_loras _ _ _ _ Hloras Hprep) as [Hfield _].
      eapply Forall_impl; [exact Hmade|]. intros c [_ ->]. exact Hfield.
Qed.

(** X2: an empty prompt, or one of white space only, is refused at once:
    [handleGenerate] shows the prompt toast, makes no outbound call, saves
    nothing and leaves the page as it was. *)
Theorem blank_prompt_is_refused fuel model ui w :
  WhitespaceOnly (prompt ui) ->
  handleGenerate fuel model ui w =
  Some (ui, emit (EvToastError "请输入提示词" None) w, Resolved ()).
Proof.
  intros Hblank%blank_spec. unfold handleGenerate.
  rewrite trim_empty, Hblank. reflexivity.
Qed.

End Loras.

(** * The scenarios of the specification *)
Module Scenarios.
Import Fixtures.

(** Two credentials, both out of funds: "ALL_KEYS_EXHAUSTED" after one call
    with each. *)
Lemma rotation_on_balance_exhaustion_witness :
  let host := funds ["k0"; "k1"] (Some [img1]) in
  generateImage (H := host) (H0 := RotationPolicy.manager) 3 two_keys flux a_cat "k0" =
    Some (after_second,
          Resolved (Failure all_keys_exhausted_message (Some "ALL_KEYS_EXHAUSTED"))) /\
  call_credentials <$> calls (trace after_second) = ["k0"; "k1"] /\
  rotations (trace after_second) = 2.
Proof.
  intros host. split; [|split; reflexivity].
  etransitivity.
  - exact (proj1 (rotation_on_balance_exhaustion (H := host) 2 two_keys flux a_cat "k0"
                    (emit (EvSubscribe (sent flux a_cat "k0")) two_keys)
                    forbidden eq_refl eq_refl (ex_intro _ StructuredBody eq_refl))
           : generateImage (H := host) (H0 := RotationPolicy.manager) 3 two_keys flux a_cat "k0" =
             generateImage (H := host) (H0 := RotationPolicy.manager) 2 after_first flux a_cat "k1").
  - exact (proj1 (rotation_on_balance_exhaustion (H := host) 1 after_first flux a_cat "k1"
                    (emit (EvSubscribe (sent flux a_cat "k1")) after_first)
                    forbidden eq_refl eq_refl (ex_intro _ StructuredBody eq_refl))).
Defined.

(** Three credentials, the first two out of funds: success with the third,
    after two rotations. *)
Example third_credential_succeeds :
  let host := funds ["k0"; "k1"] (Some [img1; img2]) in
  exists w' r,
    generateImage (H := host) (H0 := RotationPolicy.manager) 3 three_keys flux a_cat "k0" =
      Some (w', Resolved (Success r)) /\
    call_credentials <$> calls (trace w') = ["k0"; "k1"; "k2"] /\
    rotations (trace w') = 2 /\
    active_key (storage w') = Some "k2" /\
    images r = [img1; img2].
Proof. intros host. do 2 eexists. vm_compute. repeat split. Qed.

(** Once exhausted, [advance()] keeps returning none and never wraps around. *)
Example advance_stays_exhausted (st : Storage) :
  (RotationPolicy.advance st).1 = None ->
  RotationPolicy.advance (RotationPolicy.advance st).2 = RotationPolicy.advance st.
Proof.
  unfold RotationPolicy.advance.
  set (next := (default (-1) (active_key_index st) + 1)%Z).
  destruct (if (0 <=? next)%Z then api_keys st !! Z.to_nat next else None) eqn:Hnext;
    [discriminate|].
  intros _. simpl.
  destruct (Z.leb_spec 0 (Z.of_nat (length (api_keys st)) + 1)) as [_|Hneg]; [|lia].
  rewrite (proj2 (lookup_ge_None (api_keys st) _)) by lia.
  reflexivity.
Qed.

Lemma dispatch_resolves_witness :
  let host := funds ["k0"; "k1"] (Some [img1]) in
  exists w' response,
    generateImage (H := host) (H0 := RotationPolicy.manager) 3 two_keys flux a_cat "k0" =
    Some (w', Resolved response).
Proof.
  intros host.
  apply (proj2 (dispatch_resolves (H := host) (H0 := RotationPolicy.manager)
                  3 two_keys flux a_cat "k0" (or_intror (ex_intro _ "a cat" eq_refl)))
           (fun st => length (RotationPolicy.remaining st))).
  - intros st st'. apply manager_measure.
  - vm_compute. lia.
Defined.

Lemma unmatched_failure_is_reported_witness :
  let host := host (fun _ _ => Threw server_error) in
  let w1 := emit (EvSubscribe (sent flux a_cat "k0")) two_keys in
  first_match (H := host) server_error = None /\
  generateImage (H := host) (H0 := RotationPolicy.manager) 1 two_keys flux a_cat "k0" =
    Some (w1, Resolved (Failure "Request failed: 500 Internal Server Error" None)).
Proof.
  intros host w1. split; [reflexivity|].
  exact (proj1 (unmatched_failure_is_reported (H := host) (H0 := RotationPolicy.manager)
                  0 two_keys flux a_cat "k0" w1 server_error eq_refl eq_refl eq_refl)).
Defined.

Lemma empty_result_is_failure_witness :
  let host := funds [] (Some []) in
  generateImage (H := host) (H0 := RotationPolicy.manager) 1 two_keys flux a_cat "k0" =
    Some (emit (EvSubscribe (sent flux a_cat "k0")) two_keys,
          Resolved (Failure no_images_message None)).
Proof.
  intros host.
  apply (empty_result_is_failure (H := host) (H0 := RotationPolicy.manager)
           0 two_keys flux a_cat "k0"
           {| result_requestId := "req-1";
              result_data := Some {| data_images := Some [];
                                     data_seed := JNum 42;
                                     data_timings := JUndefined;
                                     data_has_nsfw_concepts := Some [false; false] |} |}).
  - reflexivity.
  - discriminate.
  - reflexivity.
  - right. reflexivity.
Defined.

(** A key manager that reports a switch and leaves the slot empty: the retry
    finds no credential. *)
Lemma retry_reads_active_key_slot_witness :
  let host := funds ["k0"] (Some [img1]) in
  let st := {| active_key := None; api_keys := ["k0"; "k1"]; active_key_index := Some 1%Z |} in
  let w2 := emit (EvRotate true)
              {| storage := st; trace := [EvSubscribe (sent flux a_cat "k0")] |} in
  handleBalanceExhaustedError (KeyManager := forgetful) (storage two_keys) = (true, st) /\
  generateImage (H := host) (H0 := forgetful) 2 two_keys flux a_cat "k0" =
    Some (w2, Resolved (Failure missing_key_message None)).
Proof.
  intros host st w2. split; [reflexivity|].
  exact (proj2 (retry_reads_active_key_slot (H := host) (H0 := forgetful)
                  0 two_keys flux a_cat "k0"
                  (emit (EvSubscribe (sent flux a_cat "k0")) two_keys) forbidden st
                  eq_refl eq_refl (ex_intro _ StructuredBody eq_refl) eq_refl) eq_refl).
Defined.

Lemma one_record_per_image_witness :
  let host := funds [] (Some [img1; img2]) in
  exists ui' w' settled records,
    handleGenerate (H := host) (H0 := RotationPolicy.manager) (H1 := history [])
      1 flux page two_keys = Some (ui', w', settled) /\
    saved (trace w') = (saved (trace two_keys) ++ records)%list /\
    length records = 2 /\
    output_images <$> records = [[img1]; [img2]].
Proof.
  intros host.
  apply (one_record_per_image (H := host) (H0 := RotationPolicy.manager) (H1 := history [])
           1 flux page two_keys sent_bag "k0" (storage two_keys)
           (emit (EvSubscribe (sent flux sent_bag "k0")) two_keys) response_of_two).
  - vm_compute. discriminate.
  - vm_compute. reflexivity.
  - reflexivity.
  - discriminate.
  - vm_compute. reflexivity.
Defined.

Lemma persistence_is_awaited_witness :
  let host := funds [] (Some [img1; img2]) in
  let store := history ["https://fal.media/files/2.png"] in
  let w2 := emit (EvSubscribe (sent flux sent_bag "k0")) two_keys in
  exists ui' w' settled records after,
    handleGenerate (H := host) (H0 := RotationPolicy.manager) (H1 := store)
      1 flux page two_keys = Some (ui', w', settled) /\
    result ui' = Some [img1; img2] /\
    length records = 2 /\
    trace w' = (trace w2 ++ (EvSave <$> records) ++ EvAwaitAll :: after)%list /\
    (Forall (fun g => saveGeneration (Persistence := store) g = Saved) records ->
       after = [EvToastSuccess "图像生成成功" (JNum 42)] /\ settled = Resolved ()) /\
    (forall g t reason, g ∈ records ->
       saveGeneration (Persistence := store) g = SaveRejected t reason ->
       Forall (fun e => ~ reports_success e) after /\
       ((settled = Resolved () /\ Exists reports_failure after) \/
        (exists e, settled = Rejected e /\ after = []))) /\
    (Promise_all (saveGeneration (Persistence := store) <$> records) = Some ThrownNullish ->
       exists e, settled = Rejected e /\ after = []).
Proof.
  intros host store w2.
  apply (persistence_is_awaited (H := host) (H0 := RotationPolicy.manager) (H1 := store)
           1 flux page two_keys sent_bag "k0" (storage two_keys) w2 response_of_two).
  - vm_compute. discriminate.
  - vm_compute. reflexivity.
  - reflexivity.
  - discriminate.
  - vm_compute. reflexivity.
Defined.

(** C8 (as stated) fails: with two images of which the second is not stored,
    both records are sent to the persistence service, and the flow then reports
    the failure to the user where it reports success when both are stored. *)
Lemma persistence_failure_is_reported :
  let host := funds [] (Some [img1; img2]) in
  let run failing :=
    handleGenerate (H := host) (H0 := RotationPolicy.manager) (H1 := history failing)
      1 flux page two_keys in
  (exists ui' w',
     run [] = Some (ui', w', Resolved ()) /\
     length (saved (trace w')) = 2 /\
     last (trace w') = Some (EvToastSuccess "图像生成成功" (JNum 42))) /\
  (exists ui' w',
     run ["https://fal.media/files/2.png"] = Some (ui', w', Resolved ()) /\
     length (saved (trace w')) = 2 /\
     last (trace w') = Some (EvToastError "生成失败" (Some "insert failed"))).
Proof. intros host run. split; do 2 eexists; vm_compute; repeat split. Qed.

(** A rejection with [null] or [undefined]: both records are sent, the catch
    clause throws on reading [error.status], nothing is shown and the flow
    itself rejects. *)
Example persistence_rejection_with_null :
  let host := funds [] (Some [img1; img2]) in
  exists ui' w' e,
    handleGenerate (H := host) (H0 := RotationPolicy.manager) (H1 := null_history)
      1 flux page two_keys = Some (ui', w', Rejected e) /\
    length (saved (trace w')) = 2 /\
    last (trace w') = Some EvAwaitAll /\
    isGenerating ui' = false.
Proof. intros host. do 3 eexists. vm_compute. repeat split. Qed.

Lemma blank_loras_are_dropped_witness :
  let host := funds [] None in
  let bag : gmap string JsVal := {[ "loras" := JArr [spaces_lora; named_lora; pathless_lora] ]} in
  exists allParameters,
    prepare_parameters (H := host) bag "a cat" = inr allParameters /\
    allParameters !! "loras" = Some (JArr [named_lora]).
Proof.
  intros host bag.
  destruct (blank_loras_are_dropped (H := host) (H0 := RotationPolicy.manager)
              (H1 := history []) bag "a cat" [spaces_lora; named_lora; pathless_lora] eq_refl)
    as (_ & _ & Hruns & Hfield & _).
  destruct Hruns as [allParameters Hprep].
  - repeat constructor; try (intros _; eexists; reflexivity); discriminate.
  - exists allParameters. split; [exact Hprep|].
    exact (proj1 (Hfield allParameters Hprep)).
Defined.

Lemma missing_credential_is_reported_witness :
  let host := funds [] (Some [img1]) in
  generateImage (H := host) (H0 := RotationPolicy.manager) 1 two_keys flux a_cat "" =
  Some (two_keys, Resolved (Failure missing_key_message None)).
Proof.
  intros host.
  exact (missing_credential_is_reported (H := host) (H0 := RotationPolicy.manager)
           0 two_keys flux a_cat eq_refl).
Defined.

Lemma blank_prompt_is_refused_witness :
  let host := funds [] (Some [img1]) in
  handleGenerate (H := host) (H0 := RotationPolicy.manager) (H1 := history [])
    1 flux blank_page two_keys =
  Some (blank_page, emit (EvToastError "请输入提示词" None) two_keys, Resolved ()).
Proof.
  intros host.
  apply (blank_prompt_is_refused (H := host) (H0 := RotationPolicy.manager) (H1 := history [])).
  apply blank_spec. reflexivity.
Defined.

(** Each signal on an error of its own, and the first in order on an error
    that matches all three. *)
Example signals_by_example :
  let host := funds [] None in
  first_match (H := host) forbidden = Some StructuredBody /\
  first_match (H := host) (Error "403 Forbidden: Exhausted balance") = Some MessageMarker /\
  first_match (H := host) embedded = Some EmbeddedJson /\
  first_match (H := host) thrice = Some StructuredBody /\
  embedded_json (H := host) thrice = true.
Proof. vm_compute. repeat split. Qed.

(** An error that matches all three signals moves the rotation by one. *)
Example one_rotation_per_failure :
  let host := host (fun n _ => if (n =? 0)%nat then Threw thrice else completed (Some [img1])) in
  exists w' r,
    generateImage (H := host) (H0 := RotationPolicy.manager) 2 three_keys flux a_cat "k0" =
      Some (w', Resolved (Success r)) /\
    rotations (trace w') = 1 /\
    call_credentials <$> calls (trace w') = ["k0"; "k1"].
Proof. intros host. do 2 eexists. vm_compute. repeat split. Qed.

(** Without a usable entry the key is removed. *)
Example loras_key_is_removed :
  let host := funds [] None in
  prepare_parameters (H := host) {[ "loras" := JArr [spaces_lora; pathless_lora] ]} "a cat" =
  inr {[ "prompt" := JStr "a cat" ]}.
Proof. vm_compute. reflexivity. Qed.

End Scenarios.

(** * Further properties of the code *)

(** ** The dispatcher, for any key manager *)
Section DispatcherFrame.
Context `{Host} `{KeyManager}.

Lemma rotations_app t1 t2 : rotations (t1 ++ t2) = rotations t1 + rotations t2.
Proof. unfold rotations. rewrite filter_app, length_app. reflexivity. Qed.

Lemma rotations_subscribe c t : rotations (EvSubscribe c :: t) = rotations t.
Proof. reflexivity. Qed.

Lemma rotations_rotate b t : rotations (EvRotate b :: t) = S (rotations t).
Proof. reflexivity. Qed.

Lemma rotations_nil : rotations [] = 0.
Proof. reflexivity. Qed.

(** X3: the log entry of lines 10-13 is made before the [try] block is
    entered. A prompt that is present, neither [null] nor [undefined], and not a
    string makes it throw, and [generateImage] then rejects at once, whatever
    the credential: it makes no outbound call, does not consult the key manager
    and leaves storage as it was. With any other prompt the log entry does not
    throw. *)
Theorem log_entry_rejects_before_try fuel w model input apiKey :
  (exists thrown,
     log_start input = Some thrown /\
     generateImage (S fuel) w model input apiKey = Some (w, Rejected thrown)) <->
  (exists v, input !! "prompt" = Some v /\ nullish v = false /\ (forall s, v <> JStr s)).
Proof.
  rewrite generateImage_step. unfold log_start. split.
  - intros (thrown & Hlog & _).
    destruct (input !! "prompt") as [v|]; [|discriminate].
    exists v. split; [reflexivity|].
    destruct v; try discriminate; split; try reflexivity; intros s; discriminate.
  - intros (v & -> & Hnull & Hstr).
    destruct v as [| |b|n|s|items|fs]; try discriminate;
      try (eexists; split; reflexivity).
    destruct (Hstr s). reflexivity.
Qed.

Lemma generateImage_frame fuel model input :
  forall w apiKey w' settled,
    generateImage fuel w model input apiKey = Some (w', settled) ->
    exists evs,
      trace w' = (trace w ++ evs)%list /\
      Forall (own_event model input) evs /\
      (forall c, head (calls evs) = Some c -> call_credentials c = apiKey) /\
      rotations evs <= length (calls evs) <= S (rotations evs) /\
      (rotations evs = 0 -> storage w' = storage w).
Proof.
  induction fuel as [|fuel IH]; intros w apiKey w' settled; [discriminate|].
  assert (Hnone : exists evs,
             trace w = (trace w ++ evs)%list /\
             Forall (own_event model input) evs /\
             (forall c, head (calls evs) = Some c -> call_credentials c = apiKey) /\
             rotations evs <= length (calls evs) <= S (rotations evs) /\
             (rotations evs = 0 -> storage w = storage w)).
  { exists []. rewrite app_nil_r, rotations_nil.
    repeat split; try constructor; try discriminate; simpl; lia. }
  rewrite generateImage_step.
  destruct (log_start input); [intros [= <- <-]; exact Hnone|].
  destruct (String.eqb_spec apiKey "") as [->|Hkey].
  { rewrite try_block_missing_key. simpl. intros [= <- <-]. exact Hnone. }
  pose proof (try_block_world w model input apiKey Hkey) as Hw1.
  assert (Hown : own_event model input (EvSubscribe (sent model input apiKey))).
  { split; [reflexivity|exact Hkey]. }
  assert (Hone : exists evs,
             trace (emit (EvSubscribe (sent model input apiKey)) w) = (trace w ++ evs)%list /\
             Forall (own_event model input) evs /\
             (forall c, head (calls evs) = Some c -> call_credentials c = apiKey) /\
             rotations evs <= length (calls evs) <= S (rotations evs) /\
             (rotations evs = 0 ->
              storage (emit (EvSubscribe (sent model input apiKey)) w) = storage w)).
  { exists [EvSubscribe (sent model input apiKey)]. repeat split.
    - repeat constructor; assumption.
    - intros c [= <-]. reflexivity.
    - rewrite rotations_subscribe, rotations_nil. simpl. lia.
    - rewrite rotations_subscribe, rotations_nil. simpl. lia. }
  destruct (try_block w model input apiKey) as [w1 [failure|response]]; simpl in Hw1; subst w1.
  2:{ intros [= <- <-]. exact Hone. }
  rewrite catch_block_fired.
  destruct (fired failure).
  2:{ intros [= <- <-]. exact Hone. }
  unfold switch_and_retry.
  destruct (handleBalanceExhaustedError _) as [[|] st].
  2:{ intros [= <- <-].
      exists [EvSubscribe (sent model input apiKey); EvRotate false]. repeat split.
      - simpl. rewrite <- app_assoc. reflexivity.
      - repeat constructor; assumption.
      - intros c [= <-]. reflexivity.
      - rewrite rotations_subscribe, rotations_rotate, rotations_nil. simpl. lia.
      - rewrite rotations_subscribe, rotations_rotate, rotations_nil. simpl. lia.
      - rewrite rotations_subscribe, rotations_rotate. discriminate. }
  unfold retry_with. intros Hrun.
  apply IH in Hrun as (evs & Htrace & Hall & _ & Hcount & _).
  exists (EvSubscribe (sent model input apiKey) :: EvRotate true :: evs). repeat split.
  - rewrite Htrace. simpl. rewrite <- !app_assoc. reflexivity.
  - repeat constructor; assumption.
  - intros c [= <-]. reflexivity.
  - rewrite rotations_subscribe, rotations_rotate. simpl. lia.
  - rewrite rotations_subscribe, rotations_rotate. simpl. lia.
  - rewrite rotations_subscribe, rotations_rotate. discriminate.
Qed.

(** X4: whatever the key manager does, [generateImage] only makes outbound
    calls and consults the key manager. Every call carries the model id and the
    parameters it was given and a credential that is not empty, the first one
    the credential it was given; every consultation follows a call, so there
    are as many as calls or one fewer; and storage is as it was unless the key
    manager was consulted. *)
Theorem dispatch_only_calls_and_rotates fuel w model input apiKey w' settled :
  generateImage fuel w model input apiKey = Some (w', settled) ->
  exists evs,
    trace w' = (trace w ++ evs)%list /\
    Forall (own_event model input) evs /\
    (forall c, head (calls evs) = Some c -> call_credentials c = apiKey) /\
    rotations evs <= length (calls evs) <= S (rotations evs) /\
    (rotations evs = 0 -> storage w' = storage w).
Proof. apply generateImage_frame. Qed.

Lemma generateImage_error_code fuel model input :
  forall w apiKey w' text code,
    generateImage fuel w model input apiKey = Some (w', Resolved (Failure text (Some code))) ->
    code = "ALL_KEYS_EXHAUSTED" /\ text = all_keys_exhausted_message /\
    last (trace w') = Some (EvRotate false).
Proof.
  induction fuel as [|fuel IH]; intros w apiKey w' text code; [discriminate|].
  rewrite generateImage_step.
  destruct (log_start input); [discriminate|].
  assert (Hsuccess : forall w1 r,
            try_block w model input apiKey = (w1, inr r) -> exists s, r = Success s).
  { intros w1 r. unfold try_block. destruct (apiKey =? ""); [discriminate|].
    destruct (fal_subscribe _ _ _ _) as [result|e]; [|discriminate].
    destruct (result_data result ≫= data_images) as [[|img imgs]|]; try discriminate.
    intros [= _ <-]. eauto. }
  destruct (try_block w model input apiKey) as [w1 [failure|response]].
  2:{ destruct (Hsuccess w1 response eq_refl) as [s ->]. discriminate. }
  rewrite catch_block_fired.
  destruct (fired failure); [|discriminate].
  unfold switch_and_retry.
  destruct (handleBalanceExhaustedError (storage w1)) as [[|] st].
  - unfold retry_with. apply IH.
  - intros [= <- <- <-]. repeat split. simpl. apply last_snoc.
Qed.

(** X5: the only error code [generateImage] returns is "ALL_KEYS_EXHAUSTED",
    with its fixed text, and the last thing done before it was a consultation of
    the key manager that reported no switch. *)
Theorem error_code_means_exhausted fuel w model input apiKey w' text code :
  generateImage fuel w model input apiKey = Some (w', Resolved (Failure text (Some code))) ->
  code = "ALL_KEYS_EXHAUSTED" /\ text = all_keys_exhausted_message /\
  last (trace w') = Some (EvRotate false).
Proof. apply generateImage_error_code. Qed.

(** X6: an outbound call that completes with images is a success that holds
    those images, the seed and the request id; the timings are an empty object
    and the NSFW flags an empty list where the result has none. One call is made,
    the key manager is not consulted and storage is as it was. *)
Theorem completed_call_is_success fuel w model input apiKey result data img imgs :
  log_start input = None ->
  apiKey <> "" ->
  fal_subscribe (length (calls (trace w))) (id model) input apiKey = Completed result ->
  result_data result = Some data ->
  data_images data = Some (img :: imgs) ->
  exists r,
    generateImage (S fuel) w model input apiKey =
      Some (emit (EvSubscribe (sent model input apiKey)) w, Resolved (Success r)) /\
    images r = img :: imgs /\
    seed r = data_seed data /\
    requestId r = result_requestId result /\
    (truthy (data_timings data) = true -> timings r = data_timings data) /\
    (truthy (data_timings data) = false -> timings r = JObj []) /\
    has_nsfw_concepts r = default [] (data_has_nsfw_concepts data).
Proof.
  intros Hlog Hkey Hout Hdata Himgs.
  rewrite generateImage_step, Hlog. unfold try_block.
  destruct (String.eqb_spec apiKey ""); [contradiction|].
  rewrite Hout, Hdata. simpl. rewrite Himgs.
  eexists. split; [reflexivity|]. simpl. repeat split.
  - intros ->. reflexivity.
  - intros ->. reflexivity.
Qed.

End DispatcherFrame.

(** ** Clamping and preparing, once more *)
Section Clamp.
Context `{Host}.

Lemma clamp_other_fields (params : gmap string JsVal) k :
  k <> "num_images" -> ensureValidNumImages params !! k = params !! k.
Proof.
  intros Hk. unfold ensureValidNumImages.
  destruct (params !! "num_images") as [v|]; [|reflexivity].
  destruct (truthy v && gt v 4); [|reflexivity].
  apply lookup_insert_ne. congruence.
Qed.

Lemma clamp_bound (params : gmap string JsVal) n :
  ensureValidNumImages params !! "num_images" = Some (JNum n) -> (n <= 4)%Z.
Proof.
  unfold ensureValidNumImages.
  destruct (params !! "num_images") as [v|] eqn:Hv; [|rewrite Hv; discriminate].
  destruct (truthy v && gt v 4) eqn:Hgt.
  - rewrite lookup_insert_eq. intros [= <-]. lia.
  - rewrite Hv. intros [= ->]. simpl in Hgt.
    apply andb_false_iff in Hgt as [Hz|Hlt]; [apply negb_false_iff in Hz|]; lia.
Qed.

Lemma clamp_domain (params : gmap string JsVal) k :
  is_Some (ensureValidNumImages params !! k) <-> is_Some (params !! k).
Proof.
  unfold ensureValidNumImages.
  destruct (params !! "num_images") as [v|] eqn:Hv; [|reflexivity].
  destruct (truthy v && gt v 4); [|reflexivity].
  destruct (decide (k = "num_images")) as [->|Hk].
  - rewrite lookup_insert_eq, Hv. split; eauto.
  - rewrite lookup_insert_ne by congruence. reflexivity.
Qed.

(** X7: after [ensureValidNumImages] a [num_images] that is a number is at
    most 4, the bag has the same keys as before, and clamping once more changes
    nothing. *)
Theorem clamp_is_idempotent (params : gmap string JsVal) :
  ensureValidNumImages (ensureValidNumImages params) = ensureValidNumImages params /\
  (forall n, ensureValidNumImages params !! "num_images" = Some (JNum n) -> (n <= 4)%Z) /\
  (forall k, is_Some (ensureValidNumImages params !! k) <-> is_Some (params !! k)).
Proof.
  split; [|split; [apply clamp_bound|apply clamp_domain]].
  assert (Hcases : ensureValidNumImages params = params \/
                   ensureValidNumImages params = <["num_images" := JNum 4]> params).
  { unfold ensureValidNumImages.
    destruct (params !! "num_images") as [v|]; [destruct (truthy v && gt v 4)|]; auto. }
  destruct Hcases as [Heq|Heq]; rewrite Heq; [exact Heq|].
  unfold ensureValidNumImages. rewrite lookup_insert_eq. reflexivity.
Qed.

Lemma prepare_parameters_fields (bag : gmap string JsVal) text allParameters :
  prepare_parameters bag text = inr allParameters ->
  forall k, k <> "loras" ->
    allParameters !! k = ensureValidNumImages (<["prompt" := JStr text]> bag) !! k.
Proof.
  unfold prepare_parameters.
  set (clamped := ensureValidNumImages (<["prompt" := JStr text]> bag)).
  assert (Hsame : @inr Thrown _ clamped = inr allParameters ->
            forall k, k <> "loras" -> allParameters !! k = clamped !! k).
  { intros [= <-]. reflexivity. }
  destruct (clamped !! "loras") as [v|]; [|exact Hsame].
  destruct v as [| | | | |loras|]; try exact Hsame.
  destruct (filter_loras loras) as [[|lora kept]|]; [| |discriminate].
  - intros [= <-] k Hk. apply lookup_delete_ne. congruence.
  - intros [= <-] k Hk. apply lookup_insert_ne. congruence.
Qed.

Lemma prepare_parameters_prompt (bag : gmap string JsVal) text allParameters :
  prepare_parameters bag text = inr allParameters ->
  allParameters !! "prompt" = Some (JStr text) /\
  (forall n, allParameters !! "num_images" = Some (JNum n) -> (n <= 4)%Z) /\
  log_start allParameters = None.
Proof.
  intros Hprep.
  assert (Hprompt : allParameters !! "prompt" = Some (JStr text)).
  { rewrite (prepare_parameters_fields _ _ _ Hprep) by discriminate.
    rewrite clamp_other_fields by discriminate. apply lookup_insert_eq. }
  split; [exact Hprompt|]. split.
  - intros n. rewrite (prepare_parameters_fields _ _ _ Hprep) by discriminate.
    apply clamp_bound.
  - unfold log_start. rewrite Hprompt. reflexivity.
Qed.

Lemma prepare_parameters_throws (bag : gmap string JsVal) text thrown :
  prepare_parameters bag text = inl thrown ->
  exists msg, thrown = TypeError msg.
Proof.
  unfold prepare_parameters.
  destruct (ensureValidNumImages (<["prompt" := JStr text]> bag) !! "loras") as [v|];
    [|discriminate].
  destruct v as [| | | | |loras|]; try discriminate.
  destruct (filter_loras loras) as [[|lora kept]|]; try discriminate.
  intros [= <-]. eauto.
Qed.

End Clamp.

(** ** The credential of a generation *)

Lemma active_api_key_slot st k :
  active_key st = Some k -> k <> "" -> active_api_key st = (k, st).
Proof.
  intros Hk Hne. unfold active_api_key. rewrite Hk. simpl.
  destruct (String.eqb_spec k ""); [contradiction|]. reflexivity.
Qed.

Lemma active_api_key_index st i k :
  default "" (active_key st) = "" ->
  active_key_index st = Some (Z.of_nat i) ->
  api_keys st !! i = Some k ->
  active_api_key st =
  (k, {| active_key := Some k; api_keys := api_keys st;
         active_key_index := active_key_index st |}).
Proof.
  intros Hslot Hindex Hk. unfold active_api_key. rewrite Hslot, Hindex. simpl.
  apply lookup_lt_Some in Hk as Hlt.
  destruct (Z.leb_spec 0 (Z.of_nat i)); [|lia].
  destruct (Z.ltb_spec (Z.of_nat i) (Z.of_nat (length (api_keys st)))); [|lia].
  simpl. rewrite Nat2Z.id, Hk. reflexivity.
Qed.

Lemma active_api_key_frame st :
  api_keys (active_api_key st).2 = api_keys st /\
  active_key_index (active_api_key st).2 = active_key_index st.
Proof.
  unfold active_api_key.
  destruct (negb (default "" (active_key st) =? "")); [split; reflexivity|].
  destruct (_ && _)%bool; split; reflexivity.
Qed.

Lemma active_api_key_again st :
  active_api_key (active_api_key st).2 = active_api_key st.
Proof.
  set (inside := ((0 <=? default (-1) (active_key_index st))
                  && (default (-1) (active_key_index st)
                      <? Z.of_nat (length (api_keys st))))%Z).
  set (k := default "" (api_keys st !! Z.to_nat (default (-1)%Z (active_key_index st)))).
  assert (Hcases :
            active_api_key st = (default "" (active_key st), st) \/
            (inside = true /\
             active_api_key st =
             (k, {| active_key := Some k; api_keys := api_keys st;
                    active_key_index := active_key_index st |}))).
  { unfold active_api_key. fold inside. fold k.
    destruct (negb (default "" (active_key st) =? "")); [left; reflexivity|].
    destruct inside; [right; split; reflexivity|left; reflexivity]. }
  destruct Hcases as [Heq|[Hinside Heq]]; rewrite Heq; [exact Heq|].
  unfold active_api_key. simpl. fold inside. fold k. rewrite Hinside.
  destruct (negb (k =? "")); reflexivity.
Qed.

Lemma active_api_key_stored st :
  (active_api_key st).1 <> "" ->
  active_key (active_api_key st).2 = Some (active_api_key st).1.
Proof.
  unfold active_api_key.
  destruct (active_key st) as [k|] eqn:Hk; simpl.
  - destruct (String.eqb_spec k "") as [->|Hne]; simpl.
    + destruct (_ && _)%bool; simpl; [reflexivity|]. intros Hc. contradiction.
    + rewrite Hk. reflexivity.
  - destruct (_ && _)%bool; simpl; [reflexivity|]. intros Hc. contradiction.
Qed.

(** X8: the credential of a generation is the one stored under
    "fal-ai-active-key" when that slot holds a non-empty string, and storage is
    then left as it is; with an empty slot it is the [key] of the entry at the
    stored index, which is then written to the slot. The list of keys and the
    index are never changed, a credential that is found is always in the slot
    afterwards, and looking again gives the same credential and changes
    nothing. *)
Theorem active_key_is_cached st :
  (forall k, active_key st = Some k -> k <> "" -> active_api_key st = (k, st)) /\
  (forall i k,
     default "" (active_key st) = "" ->
     active_key_index st = Some (Z.of_nat i) ->
     api_keys st !! i = Some k ->
     active_api_key st =
     (k, {| active_key := Some k; api_keys := api_keys st;
            active_key_index := active_key_index st |})) /\
  api_keys (active_api_key st).2 = api_keys st /\
  active_key_index (active_api_key st).2 = active_key_index st /\
  ((active_api_key st).1 <> "" ->
   active_key (active_api_key st).2 = Some (active_api_key st).1) /\
  active_api_key (active_api_key st).2 = active_api_key st.
Proof.
  split; [apply active_api_key_slot|]. split; [apply active_api_key_index|].
  split; [apply active_api_key_frame|]. split; [apply active_api_key_frame|].
  split; [apply active_api_key_stored|apply active_api_key_again].
Qed.

(** ** The runs of [handleGenerate] *)
Section Runs.
Context `{Host} `{KeyManager} `{Persistence}.

Lemma set_generating_twice b b' ui :
  set_generating b (set_generating b' ui) = set_generating b ui.
Proof. reflexivity. Qed.

Lemma handle_response_failure model ui allParameters w text code :
  handle_response model ui allParameters w (Failure text code) =
  (ui, emit (failure_toast text code) w, inr ()).
Proof.
  unfold handle_response, failure_toast. destruct (bool_decide _); reflexivity.
Qed.

Lemma handleGenerate_runs fuel model ui w ui' w' settled :
  trim (prompt ui) <> "" ->
  handleGenerate fuel model ui w = Some (ui', w', settled) ->
  Run fuel model ui w ui' w' settled.
Proof.
  intros Hprompt. unfold handleGenerate.
  destruct (String.eqb_spec (trim (prompt ui)) ""); [contradiction|].
  unfold generate_try. simpl prompt. simpl parameters.
  destruct (prepare_parameters (parameters ui) (prompt ui)) as [thrown|allParameters] eqn:Hprep.
  { pose proof (run_unprepared fuel model ui w thrown Hprep) as Hrun.
    destruct (generate_catch w thrown) as [w4 settled4].
    intros [= <- <- <-]. exact Hrun. }
  destruct (active_api_key (storage w)) as [apiKey st] eqn:Hkey.
  destruct (String.eqb_spec apiKey "") as [->|Hne].
  { intros [= <- <- <-]. exact (run_without_key fuel model ui w allParameters st Hprep Hkey). }
  destruct (generateImage fuel _ model allParameters apiKey) as [[w2 [response|thrown]]|] eqn:Hrun;
    [| |discriminate].
  - destruct response as [r|text code].
    + rewrite handle_response_success. cbv zeta.
      destruct (Promise_all _) as [reason|] eqn:Hall.
      * pose proof (run_unsaved fuel model ui w allParameters apiKey st w2 r reason
                      Hprep Hkey Hne Hrun Hall) as Hcase.
        destruct (generate_catch _ reason) as [w4 settled4].
        intros [= <- <- <-]. exact Hcase.
      * intros [= <- <- <-].
        exact (run_saved fuel model ui w allParameters apiKey st w2 r Hprep Hkey Hne Hrun Hall).
    + rewrite handle_response_failure. intros [= <- <- <-].
      exact (run_failed fuel model ui w allParameters apiKey st w2 text code
               Hprep Hkey Hne Hrun).
  - apply generateImage_never_rejects in Hrun as [response Hr]; [discriminate|].
    apply (prepare_parameters_prompt _ _ _ Hprep).
Qed.

End Runs.

Section RunProperties.
Context `{Host} `{KeyManager} `{Persistence}.

(** X9: with a prompt and parameters that are in order but no credential to
    be found (an empty slot, and no usable entry at the stored index),
    [handleGenerate] shows the missing-key toast and stops: no outbound call is
    made, nothing is saved and the page is no longer generating. *)
Theorem missing_key_stops_generation fuel model ui w allParameters :
  trim (prompt ui) <> "" ->
  prepare_parameters (parameters ui) (prompt ui) = inr allParameters ->
  (active_api_key (storage w)).1 = "" ->
  handleGenerate fuel model ui w =
  Some (set_generating false ui,
        emit (EvToastError "未设置API密钥"
                (Some "请先在设置中添加并选择一个FAL.AI API密钥"))
          {| storage := (active_api_key (storage w)).2; trace := trace w |},
        Resolved ()).
Proof.
  intros Hprompt Hprep Hkey. unfold handleGenerate.
  destruct (String.eqb_spec (trim (prompt ui)) ""); [contradiction|].
  unfold generate_try. simpl prompt. simpl parameters. rewrite Hprep.
  destruct (active_api_key (storage w)) as [apiKey st]. simpl in Hkey. subst apiKey.
  reflexivity.
Qed.

(** X10: when the dispatcher returns a failure, [handleGenerate] shows one
    error toast and stops: the toast of exhausted keys for the code
    "ALL_KEYS_EXHAUSTED", else the failure toast with the text of the failure
    (a hint when the text is empty). Nothing is saved, the images displayed stay
    as they were and the page is no longer generating. *)
Theorem failed_generation_is_reported fuel model ui w allParameters apiKey st w2 text code :
  trim (prompt ui) <> "" ->
  prepare_parameters (parameters ui) (prompt ui) = inr allParameters ->
  active_api_key (storage w) = (apiKey, st) ->
  apiKey <> "" ->
  generateImage fuel {| storage := st; trace := trace w |} model allParameters apiKey =
    Some (w2, Resolved (Failure text code)) ->
  exists title description,
    handleGenerate fuel model ui w =
      Some (set_generating false ui,
            emit (EvToastError title (Some description)) w2, Resolved ()) /\
    ((code = Some "ALL_KEYS_EXHAUSTED" /\ title = "所有API密钥余额不足" /\
      description = "请添加新的API密钥或充值您的账户。") \/
     (code <> Some "ALL_KEYS_EXHAUSTED" /\ title = "生成失败" /\
      (text <> "" -> description = text) /\
      (text = "" -> description = check_key_hint))) /\
    saved (trace (emit (EvToastError title (Some description)) w2)) = saved (trace w).
Proof.
  intros Hprompt Hprep Hkey Hne Hrun.
  assert (Hgen : handleGenerate fuel model ui w =
                 Some (set_generating false ui, emit (failure_toast text code) w2, Resolved ())).
  { unfold handleGenerate.
    destruct (String.eqb_spec (trim (prompt ui)) ""); [contradiction|].
    unfold generate_try. simpl prompt. simpl parameters. rewrite Hprep, Hkey.
    destruct (String.eqb_spec apiKey ""); [contradiction|].
    rewrite Hrun, handle_response_failure. reflexivity. }
  apply generateImage_saved in Hrun as Hsaved. simpl in Hsaved.
  unfold failure_toast in Hgen.
  destruct (bool_decide (code = Some "ALL_KEYS_EXHAUSTED")) eqn:Hcode.
  - apply bool_decide_eq_true in Hcode. do 2 eexists. split; [exact Hgen|]. split.
    + left. repeat split. exact Hcode.
    + simpl. rewrite saved_app. simpl. rewrite app_nil_r. exact Hsaved.
  - apply bool_decide_eq_false in Hcode. do 2 eexists. split; [exact Hgen|]. split.
    + right. repeat split; [exact Hcode| |].
      * intros Htext. destruct (String.eqb_spec text ""); [contradiction|reflexivity].
      * intros ->. reflexivity.
    + simpl. rewrite saved_app. simpl. rewrite app_nil_r. exact Hsaved.
Qed.

Lemma generateImage_success_images fuel model input :
  forall w apiKey w' r,
    generateImage fuel w model input apiKey = Some (w', Resolved (Success r)) ->
    images r <> [].
Proof.
  induction fuel as [|fuel IH]; intros w apiKey w' r; [discriminate|].
  rewrite generateImage_step.
  destruct (log_start input); [discriminate|].
  assert (Hsuccess : forall w1 s,
            try_block w model input apiKey = (w1, inr (Success s)) -> images s <> []).
  { intros w1 s. unfold try_block. destruct (apiKey =? ""); [discriminate|].
    destruct (fal_subscribe _ _ _ _) as [result|e]; [|discriminate].
    destruct (result_data result ≫= data_images) as [[|img imgs]|]; try discriminate.
    intros [= _ <-]. discriminate. }
  destruct (try_block w model input apiKey) as [w1 [failure|response]].
  2:{ intros [= <- ->]. eapply Hsuccess. reflexivity. }
  rewrite catch_block_fired.
  destruct (fired failure); [|discriminate].
  unfold switch_and_retry.
  destruct (handleBalanceExhaustedError (storage w1)) as [[|] st]; [|discriminate].
  unfold retry_with. apply IH.
Qed.

(** X11: whatever happens in a run of [handleGenerate], the prompt and the
    parameters of the page are not changed; the page is not left generating
    (with a blank prompt it is left exactly as it was); and the images displayed
    are those of before or the images, at least one, of this generation. *)
Theorem page_is_released fuel model ui w ui' w' settled :
  handleGenerate fuel model ui w = Some (ui', w', settled) ->
  prompt ui' = prompt ui /\
  parameters ui' = parameters ui /\
  (trim (prompt ui) = "" -> ui' = ui) /\
  (trim (prompt ui) <> "" -> isGenerating ui' = false) /\
  (result ui' = result ui \/ exists imgs, imgs <> [] /\ result ui' = Some imgs).
Proof.
  intros Hrun.
  destruct (String.eqb_spec (trim (prompt ui)) "") as [Hblank|Hprompt].
  - unfold handleGenerate in Hrun. rewrite Hblank in Hrun. simpl in Hrun.
    injection Hrun as <- _ _. repeat split; auto. contradiction.
  - apply handleGenerate_runs in Hrun; [|exact Hprompt].
    destruct Hrun; repeat split; try contradiction; auto;
      right; exists (images r); (split; [|reflexivity]);
      eapply generateImage_success_images; eassumption.
Qed.

Lemma calls_own model input evs :
  Forall (own_event model input) evs ->
  Forall (fun c => call_model c = id model /\ call_input c = input /\
                   call_credentials c <> "") (calls evs).
Proof.
  induction 1 as [|e evs He _ IH]; [constructor|].
  destruct e; simpl in He; try contradiction; [|exact IH].
  destruct He as [Hc Hne]. constructor; [|exact IH].
  rewrite Hc. simpl. repeat split. rewrite Hc in Hne. exact Hne.
Qed.

Lemma calls_awaiting w records : calls (trace (awaiting w records)) = calls (trace w).
Proof.
  unfold awaiting. simpl. rewrite !calls_app, calls_saves. simpl. rewrite !app_nil_r.
  reflexivity.
Qed.

Lemma calls_emit_page w e : page_event e -> calls (trace (emit e w)) = calls (trace w).
Proof.
  intros He. simpl. rewrite calls_app, (calls_page [e]); [apply app_nil_r|].
  constructor; [exact He|constructor].
Qed.

(** X12: every outbound call that a run of [handleGenerate] makes carries
    the id of the model, a credential that is not empty, the prompt of the page
    as a string, and a [num_images] that, when it is a number, is at most 4. *)
Theorem dispatched_bag_is_valid fuel model ui w ui' w' settled :
  handleGenerate fuel model ui w = Some (ui', w', settled) ->
  exists made,
    calls (trace w') = (calls (trace w) ++ made)%list /\
    Forall (fun c =>
              call_model c = id model /\
              call_credentials c <> "" /\
              call_input c !! "prompt" = Some (JStr (prompt ui)) /\
              (forall n, call_input c !! "num_images" = Some (JNum n) -> (n <= 4)%Z))
           made.
Proof.
  intros Hrun.
  assert (Hnone : calls (trace w') = calls (trace w) ->
            exists made,
              calls (trace w') = (calls (trace w) ++ made)%list /\
              Forall (fun c =>
                        call_model c = id model /\
                        call_credentials c <> "" /\
                        call_input c !! "prompt" = Some (JStr (prompt ui)) /\
                        (forall n, call_input c !! "num_images" = Some (JNum n) ->
                                   (n <= 4)%Z))
                     made).
  { intros ->. exists []. rewrite app_nil_r. split; [reflexivity|constructor]. }
  assert (Hsome : forall allParameters apiKey st w2 settled2,
            prepare_parameters (parameters ui) (prompt ui) = inr allParameters ->
            generateImage fuel {| storage := st; trace := trace w |} model allParameters apiKey =
              Some (w2, settled2) ->
            calls (trace w') = calls (trace w2) ->
            exists made,
              calls (trace w') = (calls (trace w) ++ made)%list /\
              Forall (fun c =>
                        call_model c = id model /\
                        call_credentials c <> "" /\
                        call_input c !! "prompt" = Some (JStr (prompt ui)) /\
                        (forall n, call_input c !! "num_images" = Some (JNum n) ->
                                   (n <= 4)%Z))
                     made).
  { intros allParameters apiKey st w2 settled2 Hprep Hgen ->.
    apply generateImage_frame in Hgen as (evs & Htrace & Hall & _).
    simpl in Htrace. exists (calls evs). rewrite Htrace, calls_app. split; [reflexivity|].
    destruct (prepare_parameters_prompt _ _ _ Hprep) as (Hp & Hn & _).
    eapply Forall_impl; [exact (calls_own _ _ _ Hall)|].
    intros c (Hm & -> & Hc). repeat split; assumption. }
  destruct (String.eqb_spec (trim (prompt ui)) "") as [Hblank|Hprompt].
  - unfold handleGenerate in Hrun. rewrite Hblank in Hrun. simpl in Hrun.
    injection Hrun as _ <- _. apply Hnone. apply calls_emit_page. exact I.
  - apply handleGenerate_runs in Hrun; [|exact Hprompt].
    destruct Hrun.
    + apply Hnone. apply generate_catch_calls.
    + apply Hnone. apply (calls_emit_page {| storage := st; trace := trace w |}). exact I.
    + eapply Hsome; [eassumption|eassumption|].
      apply calls_emit_page. unfold failure_toast. destruct (bool_decide _); exact I.
    + eapply Hsome; [eassumption|eassumption|].
      rewrite calls_emit_page by exact I. apply calls_awaiting.
    + eapply Hsome; [eassumption|eassumption|].
      rewrite generate_catch_calls. apply calls_awaiting.
Qed.

End RunProperties.

Section Retrying.
Context `{Host} `{KeyManager} `{Persistence}.

Lemma generate_catch_events w error :
  exists evs,
    trace (generate_catch w error).1 = (trace w ++ evs)%list /\
    Forall page_event evs /\
    (forall ms, EvSetTimeout ms ∈ evs -> ms = 1500%Z /\ asks_for_switch error = true) /\
    (forall e, (generate_catch w error).2 = Rejected e -> error = ThrownNullish).
Proof.
  destruct error as [| |o]; simpl.
  - exists []. rewrite app_nil_r. split; [reflexivity|]. split; [constructor|]. split.
    + intros ms Hin. apply elem_of_nil in Hin. contradiction.
    + reflexivity.
  - eexists [_]. split; [reflexivity|]. split; [repeat constructor|]. split.
    + intros ms Hin. apply list_elem_of_singleton in Hin. discriminate.
    + discriminate.
  - destruct (_ && _) eqn:Hcond; simpl.
    + eexists [_; _]. split; [rewrite <- app_assoc; reflexivity|].
      split; [repeat constructor|]. split; [|discriminate].
      intros ms Hin. apply elem_of_cons in Hin as [Hin|Hin]; [discriminate|].
      apply list_elem_of_singleton in Hin. injection Hin as ->. split; reflexivity.
    + eexists [_]. split; [reflexivity|]. split; [repeat constructor|]. split.
      * intros ms Hin. apply list_elem_of_singleton in Hin. discriminate.
      * discriminate.
Qed.

Lemma own_events_quiet model input evs :
  Forall (own_event model input) evs ->
  (forall ms, EvSetTimeout ms ∉ evs) /\ (forall g, EvSave g ∉ evs).
Proof.
  intros Hall. rewrite Forall_forall in Hall.
  split; intros x Hin; apply Hall in Hin; exact Hin.
Qed.

(** X13: a run of [handleGenerate] schedules a second run (the timeout of
    1.5 s) only after a persistence call of this run was rejected with status
    403 and a message that contains "balance"; a balance failure of the
    generation itself never does, the dispatcher having turned it into a
    response. The run itself rejects only after a persistence call of the run
    was rejected: nothing else that the [try] block throws makes the catch
    clause throw. *)
Theorem automatic_retry_needs_persistence_rejection fuel model ui w ui' w' settled :
  handleGenerate fuel model ui w = Some (ui', w', settled) ->
  exists evs,
    trace w' = (trace w ++ evs)%list /\
    (forall ms, EvSetTimeout ms ∈ evs ->
       ms = 1500%Z /\
       exists g t o,
         EvSave g ∈ evs /\
         saveGeneration g = SaveRejected t (ThrownObject o) /\
         status o = Some 403%Z /\
         includes (default "" (message_in o)) "balance" = true) /\
    (forall e, settled = Rejected e ->
       exists g t reason, EvSave g ∈ evs /\ saveGeneration g = SaveRejected t reason).
Proof.
  intros Hrun.
  assert (Hquiet : forall evs,
            trace w' = (trace w ++ evs)%list ->
            (forall ms, EvSetTimeout ms ∉ evs) ->
            (forall e, settled <> Rejected e) ->
            exists evs,
              trace w' = (trace w ++ evs)%list /\
              (forall ms, EvSetTimeout ms ∈ evs ->
                 ms = 1500%Z /\
                 exists g t o,
                   EvSave g ∈ evs /\
                   saveGeneration g = SaveRejected t (ThrownObject o) /\
                   status o = Some 403%Z /\
                   includes (default "" (message_in o)) "balance" = true) /\
              (forall e, settled = Rejected e ->
                 exists g t reason, EvSave g ∈ evs /\
                                    saveGeneration g = SaveRejected t reason)).
  { intros evs Htrace Hno Hres. exists evs. split; [exact Htrace|]. split.
    - intros ms Hin. apply Hno in Hin. contradiction.
    - intros e He. apply Hres in He. contradiction. }
  destruct (String.eqb_spec (trim (prompt ui)) "") as [Hblank|Hprompt].
  { unfold handleGenerate in Hrun. rewrite Hblank in Hrun. simpl in Hrun.
    injection Hrun as _ <- <-. eapply Hquiet; [reflexivity| |discriminate].
    intros ms Hin. apply list_elem_of_singleton in Hin. discriminate. }
  apply handleGenerate_runs in Hrun; [|exact Hprompt].
  destruct Hrun as [thrown Hprep|allParameters st Hprep Hkey
                   |allParameters apiKey st w2 text code Hprep Hkey Hne Hgen
                   |allParameters apiKey st w2 r Hprep Hkey Hne Hgen records Hall
                   |allParameters apiKey st w2 r reason Hprep Hkey Hne Hgen records Hall].
  - destruct (prepare_parameters_throws _ _ _ Hprep) as [msg ->].
    destruct (generate_catch_events w (TypeError msg)) as (evs & Htrace & _ & Htime & Hrej).
    eapply Hquiet; [exact Htrace| |].
    + intros ms Hin. apply Htime in Hin as [_ Hask]. discriminate.
    + intros e He. apply Hrej in He. discriminate.
  - eapply Hquiet; [reflexivity| |discriminate].
    intros ms Hin. apply list_elem_of_singleton in Hin. discriminate.
  - apply generateImage_frame in Hgen as (evs & Htrace & Hown & _). simpl in Htrace.
    destruct (own_events_quiet _ _ _ Hown) as [Hno _].
    eapply Hquiet; [simpl; rewrite Htrace, <- app_assoc; reflexivity| |discriminate].
    intros ms [Hin|Hin]%elem_of_app; [exact (Hno ms Hin)|].
    apply list_elem_of_singleton in Hin. unfold failure_toast in Hin.
    destruct (bool_decide _); discriminate.
  - apply generateImage_frame in Hgen as (evs & Htrace & Hown & _). simpl in Htrace.
    destruct (own_events_quiet _ _ _ Hown) as [Hno _].
    eapply Hquiet; [simpl; rewrite Htrace, <- !app_assoc; reflexivity| |discriminate].
    intros ms [Hin|[Hin|Hin]%elem_of_app]%elem_of_app; [exact (Hno ms Hin)| |].
    + apply list_elem_of_fmap in Hin as (g & Hg & _). discriminate.
    + apply elem_of_cons in Hin as [Hin|Hin]; [discriminate|].
      apply list_elem_of_singleton in Hin. discriminate.
  - apply generateImage_frame in Hgen as (evs & Htrace & Hown & _). simpl in Htrace.
    destruct (own_events_quiet _ _ _ Hown) as [Hno _].
    destruct (generate_catch_events (awaiting w2 records) reason)
      as (after & Hafter & _ & Htime & Hrej).
    apply Promise_all_rejected in Hall as (g & t & Hg & Hsave).
    assert (Hin_save : EvSave g ∈ (evs ++ (EvSave <$> records) ++ [EvAwaitAll] ++ after)%list).
    { apply elem_of_app. right. apply elem_of_app. left.
      apply list_elem_of_fmap. exists g. split; [reflexivity|exact Hg]. }
    exists (evs ++ (EvSave <$> records) ++ [EvAwaitAll] ++ after)%list. split; [|split].
    + rewrite Hafter. simpl. rewrite Htrace, <- !app_assoc. reflexivity.
    + intros ms [Hin|[Hin|[Hin|Hin]%elem_of_app]%elem_of_app]%elem_of_app.
      * destruct (Hno ms Hin).
      * apply list_elem_of_fmap in Hin as (g' & Hg' & _). discriminate.
      * apply list_elem_of_singleton in Hin. discriminate.
      * apply Htime in Hin as [-> Hask]. split; [reflexivity|].
        destruct reason as [| |o]; try discriminate.
        simpl in Hask. apply andb_true_iff in Hask as [Hask Hincl].
        apply andb_true_iff in Hask as [Hstatus _].
        apply bool_decide_eq_true in Hstatus.
        exists g, t, o. repeat split; assumption.
    + intros e _. exists g, t, reason. split; assumption.
Qed.

End Retrying.

(** ** Initial parameters and loaded settings *)
Section SettingsProperties.
Context `{Host}.

Lemma hasParameter_elem schema k :
  hasParameter schema k = true <-> exists param, param ∈ schema /\ key param = k.
Proof.
  unfold hasParameter. rewrite existsb_exists. split.
  - intros (param & Hin & Hk). exists param. split; [apply list_elem_of_In; exact Hin|].
    apply String.eqb_eq. exact Hk.
  - intros (param & Hin & Hk). exists param. split; [apply list_elem_of_In; exact Hin|].
    apply String.eqb_eq. exact Hk.
Qed.

Lemma custom_lookup_ne schema k v (m : gmap string JsVal) k' :
  k <> k' -> custom schema k v m !! k' = m !! k'.
Proof.
  intros Hk. unfold custom. destruct (hasParameter schema k); [|reflexivity].
  apply lookup_insert_ne. exact Hk.
Qed.

Lemma custom_lookup_eq schema k v (m : gmap string JsVal) :
  custom schema k v m !! k = if hasParameter schema k then Some v else m !! k.
Proof.
  unfold custom. destruct (hasParameter schema k); [|reflexivity].
  apply lookup_insert_eq.
Qed.

Lemma custom_declared schema k v (m : gmap string JsVal) :
  (forall k' v', m !! k' = Some v' -> hasParameter schema k' = true) ->
  forall k' v', custom schema k v m !! k' = Some v' -> hasParameter schema k' = true.
Proof.
  intros Hm k' v'. unfold custom. destruct (hasParameter schema k) eqn:Hk; [|apply Hm].
  destruct (decide (k = k')) as [<-|Hne]; [intros _; exact Hk|].
  rewrite lookup_insert_ne by exact Hne. apply Hm.
Qed.

Lemma customDefaults_declared model schema k v :
  customDefaults model schema !! k = Some v -> hasParameter schema k = true.
Proof.
  revert k v. unfold customDefaults.
  assert (Hempty : forall k v, (∅ : gmap string JsVal) !! k = Some v ->
                               hasParameter schema k = true).
  { intros k v. rewrite lookup_empty. discriminate. }
  destruct (id model =? "fal-ai/flux-pro/v1.1");
    [|destruct (id model =? "fal-ai/flux-pro/v1.1-ultra");
      [|destruct (id model =? "fal-ai/flux-lora")]];
    repeat apply custom_declared; exact Hempty.
Qed.

Lemma customDefaults_num_images model schema :
  customDefaults model schema !! "num_images" =
  if hasParameter schema "num_images" then Some (JNum 1) else None.
Proof.
  unfold customDefaults.
  destruct (id model =? "fal-ai/flux-pro/v1.1");
    [|destruct (id model =? "fal-ai/flux-pro/v1.1-ultra");
      [|destruct (id model =? "fal-ai/flux-lora")]];
    rewrite ?custom_lookup_ne by discriminate;
    rewrite custom_lookup_eq, custom_lookup_ne, lookup_empty by discriminate; reflexivity.
Qed.

Lemma customDefaults_output_format model schema :
  customDefaults model schema !! "output_format" =
  if hasParameter schema "output_format" then Some (JStr "png") else None.
Proof.
  unfold customDefaults.
  destruct (id model =? "fal-ai/flux-pro/v1.1");
    [|destruct (id model =? "fal-ai/flux-pro/v1.1-ultra");
      [|destruct (id model =? "fal-ai/flux-lora")]];
    rewrite ?custom_lookup_ne by discriminate;
    rewrite custom_lookup_eq, lookup_empty; reflexivity.
Qed.

Lemma defaultParams_from_schema schema k v :
  defaultParams schema !! k = Some v ->
  exists param, param ∈ schema /\ key param = k /\ default_value param = v /\ v <> JUndefined.
Proof.
  unfold defaultParams, fromEntries. intros Hin%elem_of_list_to_map_2.
  apply elem_of_reverse, list_elem_of_fmap in Hin as (param & Heq & Hin).
  apply list_elem_of_filter in Hin as [Hdef Hin].
  injection Heq as -> ->. exists param. repeat split; try assumption.
  intros Hu. rewrite Hu in Hdef. exact Hdef.
Qed.

Lemma defaultParams_declared schema k v :
  defaultParams schema !! k = Some v -> hasParameter schema k = true.
Proof.
  intros (param & Hin & Hk & _)%defaultParams_from_schema.
  apply hasParameter_elem. eauto.
Qed.

Lemma defaultParams_undeclared schema k :
  hasParameter schema k = false -> defaultParams schema !! k = None.
Proof.
  intros Hk. destruct (defaultParams schema !! k) as [v|] eqn:Hv; [|reflexivity].
  apply defaultParams_declared in Hv. congruence.
Qed.

Lemma initParameters_unclamped model schema :
  initParameters model schema = customDefaults model schema ∪ defaultParams schema.
Proof.
  unfold initParameters, ensureValidNumImages.
  destruct ((customDefaults model schema ∪ defaultParams schema) !! "num_images")
    as [v|] eqn:Hv; [|reflexivity].
  destruct (hasParameter schema "num_images") eqn:Hhas.
  - erewrite lookup_union_Some_l in Hv;
      [|rewrite customDefaults_num_images, Hhas; reflexivity].
    injection Hv as <-. reflexivity.
  - rewrite lookup_union_r in Hv by (rewrite customDefaults_num_images, Hhas; reflexivity).
    rewrite defaultParams_undeclared in Hv by exact Hhas. discriminate.
Qed.

(** X14: the initial parameters hold only parameters that the schema of the
    model declares. [num_images] is 1 and [output_format] is "png" for every
    model that declares them, whatever default the schema gives, and absent
    otherwise, so the clamp applied at the end changes nothing. A parameter
    without a default of the page has a default of the schema that is not
    [undefined]. *)
Theorem initial_parameters_follow_schema (model : Model) (schema : list InputParam) :
  initParameters model schema = customDefaults model schema ∪ defaultParams schema /\
  (forall k v, initParameters model schema !! k = Some v -> hasParameter schema k = true) /\
  initParameters model schema !! "num_images" =
    (if hasParameter schema "num_images" then Some (JNum 1) else None) /\
  initParameters model schema !! "output_format" =
    (if hasParameter schema "output_format" then Some (JStr "png") else None) /\
  (forall k v,
     customDefaults model schema !! k = None ->
     initParameters model schema !! k = Some v ->
     exists param,
       param ∈ schema /\ key param = k /\ default_value param = v /\ v <> JUndefined).
Proof.
  rewrite initParameters_unclamped. split; [reflexivity|]. split; [|split; [|split]].
  - intros k v [Hc|[_ Hd]]%lookup_union_Some_raw.
    + eapply customDefaults_declared. exact Hc.
    + eapply defaultParams_declared. exact Hd.
  - destruct (hasParameter schema "num_images") eqn:Hhas.
    + apply lookup_union_Some_l. rewrite customDefaults_num_images, Hhas. reflexivity.
    + rewrite lookup_union_r by (rewrite customDefaults_num_images, Hhas; reflexivity).
      apply defaultParams_undeclared. exact Hhas.
  - destruct (hasParameter schema "output_format") eqn:Hhas.
    + apply lookup_union_Some_l. rewrite customDefaults_output_format, Hhas. reflexivity.
    + rewrite lookup_union_r by (rewrite customDefaults_output_format, Hhas; reflexivity).
      apply defaultParams_undeclared. exact Hhas.
  - intros k v Hnone. rewrite lookup_union_r by exact Hnone.
    apply defaultParams_from_schema.
Qed.

(** X15: loading settings replaces the prompt (by the empty string when the
    settings have none) and leaves the images displayed and the generating flag
    alone. A loaded parameter takes precedence over the initial one and is kept
    even when the schema does not declare it; a parameter that the settings lack
    keeps its initial value. The exceptions: [num_images] is clamped, so that as
    a number it is at most 4, and for the model "fal-ai/flux-lora" a [loras]
    that is missing or falsy becomes the empty list, so that there [loras] is
    always present and truthy. *)
Theorem loaded_settings_take_precedence (model : Model) (schema : list InputParam)
    (settings : Settings) (ui : Ui) :
  let ui' := handleLoadSettings model schema settings ui in
  prompt ui' = default "" (settings_prompt settings) /\
  result ui' = result ui /\
  isGenerating ui' = isGenerating ui /\
  (forall k v,
     settings_parameters settings !! k = Some v ->
     k <> "num_images" -> (k = "loras" -> truthy v = true) ->
     parameters ui' !! k = Some v) /\
  (forall k,
     settings_parameters settings !! k = None ->
     k <> "num_images" -> k <> "loras" ->
     parameters ui' !! k = initParameters model schema !! k) /\
  (forall n, parameters ui' !! "num_images" = Some (JNum n) -> (n <= 4)%Z) /\
  (id model = "fal-ai/flux-lora" ->
   exists v, parameters ui' !! "loras" = Some v /\ truthy v = true).
Proof.
  intros ui'. subst ui'. unfold handleLoadSettings. simpl.
  set (loaded := ensureValidNumImages
                   (settings_parameters settings ∪ initParameters model schema)).
  split; [reflexivity|]. split; [reflexivity|]. split; [reflexivity|].
  split; [|split; [|split]].
  - intros k v Hk Hnum Hloras.
    assert (Hloaded : loaded !! k = Some v).
    { unfold loaded. rewrite clamp_other_fields by exact Hnum.
      apply lookup_union_Some_l. exact Hk. }
    destruct (_ && _) eqn:Hfix; [|exact Hloaded].
    destruct (decide (k = "loras")) as [->|Hne].
    + apply andb_true_iff in Hfix as [_ Hfalsy]. rewrite Hloaded in Hfalsy.
      simpl in Hfalsy. rewrite Hloras in Hfalsy by reflexivity. discriminate.
    + rewrite lookup_insert_ne by congruence. exact Hloaded.
  - intros k Hk Hnum Hloras.
    assert (Hloaded : loaded !! k = initParameters model schema !! k).
    { unfold loaded. rewrite clamp_other_fields by exact Hnum.
      apply lookup_union_r. exact Hk. }
    destruct (_ && _); [|exact Hloaded].
    rewrite lookup_insert_ne by congruence. exact Hloaded.
  - intros n. destruct (_ && _).
    + rewrite lookup_insert_ne by discriminate. apply clamp_bound.
    + apply clamp_bound.
  - intros Hid. rewrite Hid. simpl.
    destruct (loaded !! "loras") as [v|] eqn:Hv; simpl.
    + destruct (truthy v) eqn:Ht; simpl.
      * exists v. split; [exact Hv|exact Ht].
      * exists (JArr []). split; [apply lookup_insert_eq|reflexivity].
    + exists (JArr []). split; [apply lookup_insert_eq|reflexivity].
Qed.

End SettingsProperties.

(** * Runs that show the further properties *)
Module Coverage.
Import Fixtures.

(** A prompt that is a number: the dispatcher rejects, with a credential and
    without one. *)
Example numeric_prompt_is_rejected :
  let host := funds [] (Some [img1]) in
  let run := generateImage (H := host) (H0 := RotationPolicy.manager) 3 two_keys flux
               numeric_prompt in
  run "k0" = Some (two_keys, Rejected (TypeError "input.prompt?.substring is not a function")) /\
  run "" = Some (two_keys, Rejected (TypeError "input.prompt?.substring is not a function")).
Proof. vm_compute. split; reflexivity. Qed.

Lemma dispatch_only_calls_and_rotates_witness :
  let host := funds ["k0"; "k1"] (Some [img1; img2]) in
  exists w' settled,
    generateImage (H := host) (H0 := RotationPolicy.manager) 3 three_keys flux a_cat "k0" =
      Some (w', settled) /\
    exists evs,
      trace w' = (trace three_keys ++ evs)%list /\
      Forall (own_event flux a_cat) evs /\
      (forall c, head (calls evs) = Some c -> call_credentials c = "k0") /\
      rotations evs <= length (calls evs) <= S (rotations evs) /\
      (rotations evs = 0 -> storage w' = storage three_keys).
Proof.
  intros host. do 2 eexists. split; [vm_compute; reflexivity|].
  eapply (dispatch_only_calls_and_rotates (H := host) (H0 := RotationPolicy.manager)
            3 three_keys flux a_cat "k0" _ _).
  vm_compute. reflexivity.
Defined.

Lemma error_code_means_exhausted_witness :
  let host := funds ["k0"; "k1"] (Some [img1]) in
  generateImage (H := host) (H0 := RotationPolicy.manager) 3 two_keys flux a_cat "k0" =
    Some (after_second,
          Resolved (Failure all_keys_exhausted_message (Some "ALL_KEYS_EXHAUSTED"))) /\
  "ALL_KEYS_EXHAUSTED" = "ALL_KEYS_EXHAUSTED" /\
  all_keys_exhausted_message = all_keys_exhausted_message /\
  last (trace after_second) = Some (EvRotate false).
Proof.
  intros host.
  assert (Hrun : generateImage (H := host) (H0 := RotationPolicy.manager) 3 two_keys flux
                   a_cat "k0" =
                 Some (after_second,
                       Resolved (Failure all_keys_exhausted_message
                                   (Some "ALL_KEYS_EXHAUSTED")))).
  { vm_compute. reflexivity. }
  split; [exact Hrun|].
  exact (error_code_means_exhausted (H := host) (H0 := RotationPolicy.manager)
           3 two_keys flux a_cat "k0" after_second _ _ Hrun).
Defined.

Lemma completed_call_is_success_witness :
  let host := funds [] (Some [img1; img2]) in
  exists r,
    generateImage (H := host) (H0 := RotationPolicy.manager) 1 two_keys flux a_cat "k0" =
      Some (emit (EvSubscribe (sent flux a_cat "k0")) two_keys, Resolved (Success r)) /\
    images r = [img1; img2] /\
    seed r = JNum 42 /\
    requestId r = "req-1" /\
    (truthy JUndefined = true -> timings r = JUndefined) /\
    (truthy JUndefined = false -> timings r = JObj []) /\
    has_nsfw_concepts r = [false; false].
Proof.
  intros host.
  exact (completed_call_is_success (H := host) (H0 := RotationPolicy.manager)
           0 two_keys flux a_cat "k0"
           {| result_requestId := "req-1";
              result_data := Some {| data_images := Some [img1; img2];
                                     data_seed := JNum 42;
                                     data_timings := JUndefined;
                                     data_has_nsfw_concepts := Some [false; false] |} |}
           {| data_images := Some [img1; img2];
              data_seed := JNum 42;
              data_timings := JUndefined;
              data_has_nsfw_concepts := Some [false; false] |}
           img1 [img2] eq_refl ltac:(discriminate) eq_refl eq_refl eq_refl).
Defined.

(** The credential at the stored index is used and written to the slot. *)
Example indexed_key_is_cached :
  active_api_key indexed = ("k1", store ["k0"; "k1"] 1) /\
  active_api_key (store ["k0"; "k1"] 1) = ("k1", store ["k0"; "k1"] 1).
Proof. split; reflexivity. Qed.

Lemma missing_key_stops_generation_witness :
  let host := funds [] (Some [img1]) in
  handleGenerate (H := host) (H0 := RotationPolicy.manager) (H1 := history [])
    1 flux page no_key =
  Some (set_generating false page,
        emit (EvToastError "未设置API密钥"
                (Some "请先在设置中添加并选择一个FAL.AI API密钥")) no_key,
        Resolved ()).
Proof.
  intros host.
  exact (missing_key_stops_generation (H := host) (H0 := RotationPolicy.manager)
           (H1 := history []) 1 flux page no_key sent_bag
           ltac:(vm_compute; discriminate) ltac:(vm_compute; reflexivity) eq_refl).
Defined.

Lemma failed_generation_is_reported_witness :
  let host := host (fun _ _ => Threw server_error) in
  let w2 := emit (EvSubscribe (sent flux sent_bag "k0")) two_keys in
  exists title description,
    handleGenerate (H := host) (H0 := RotationPolicy.manager) (H1 := history [])
      1 flux page two_keys =
      Some (set_generating false page,
            emit (EvToastError title (Some description)) w2, Resolved ()) /\
    title = "生成失败" /\
    description = "Request failed: 500 Internal Server Error".
Proof.
  intros host w2.
  destruct (failed_generation_is_reported (H := host) (H0 := RotationPolicy.manager)
              (H1 := history []) 1 flux page two_keys sent_bag "k0" (storage two_keys) w2
              "Request failed: 500 Internal Server Error" None)
    as (title & description & Hrun & [(Hcode & _)|(_ & Htitle & Htext & _)] & _).
  - vm_compute. discriminate.
  - vm_compute. reflexivity.
  - reflexivity.
  - discriminate.
  - vm_compute. reflexivity.
  - discriminate Hcode.
  - exists title, description. split; [exact Hrun|]. split; [exact Htitle|].
    apply Htext. discriminate.
Defined.

Lemma page_is_released_witness :
  let host := funds [] (Some [img1; img2]) in
  exists ui' w' settled,
    handleGenerate (H := host) (H0 := RotationPolicy.manager) (H1 := locked_history)
      1 flux page two_keys = Some (ui', w', settled) /\
    prompt ui' = prompt page /\
    parameters ui' = parameters page /\
    (trim (prompt page) = "" -> ui' = page) /\
    (trim (prompt page) <> "" -> isGenerating ui' = false) /\
    (result ui' = result page \/ exists imgs, imgs <> [] /\ result ui' = Some imgs).
Proof.
  intros host. do 3 eexists. split; [vm_compute; reflexivity|].
  eapply (page_is_released (H := host) (H0 := RotationPolicy.manager) (H1 := locked_history)
           1 flux page two_keys _ _ _).
  vm_compute. reflexivity.
Defined.

Lemma dispatched_bag_is_valid_witness :
  let host := funds ["k0"; "k1"] (Some [img1; img2]) in
  exists ui' w' settled,
    handleGenerate (H := host) (H0 := RotationPolicy.manager) (H1 := history [])
      3 flux page three_keys = Some (ui', w', settled) /\
    exists made,
      calls (trace w') = (calls (trace three_keys) ++ made)%list /\
      Forall (fun c =>
                call_model c = id flux /\
                call_credentials c <> "" /\
                call_input c !! "prompt" = Some (JStr (prompt page)) /\
                (forall n, call_input c !! "num_images" = Some (JNum n) -> (n <= 4)%Z))
             made.
Proof.
  intros host. do 3 eexists. split; [vm_compute; reflexivity|].
  eapply (dispatched_bag_is_valid (H := host) (H0 := RotationPolicy.manager) (H1 := history [])
           3 flux page three_keys _ _ _).
  vm_compute. reflexivity.
Defined.

(** The persistence service refuses for lack of funds: the images were
    generated, and a second run is scheduled. *)
Lemma automatic_retry_needs_persistence_rejection_witness :
  let host := funds [] (Some [img1; img2]) in
  exists ui' w' settled,
    handleGenerate (H := host) (H0 := RotationPolicy.manager) (H1 := locked_history)
      1 flux page two_keys = Some (ui', w', settled) /\
    last (trace w') = Some (EvSetTimeout 1500) /\
    exists evs,
      trace w' = (trace two_keys ++ evs)%list /\
      (forall ms, EvSetTimeout ms ∈ evs ->
         ms = 1500%Z /\
         exists g t o,
           EvSave g ∈ evs /\
           saveGeneration (Persistence := locked_history) g =
             SaveRejected t (ThrownObject o) /\
           status o = Some 403%Z /\
           includes (default "" (message_in o)) "balance" = true) /\
      (forall e, settled = Rejected e ->
         exists g t reason, EvSave g ∈ evs /\
                            saveGeneration (Persistence := locked_history) g =
                              SaveRejected t reason).
Proof.
  intros host. do 3 eexists. split; [vm_compute; reflexivity|]. split; [reflexivity|].
  eapply (automatic_retry_needs_persistence_rejection (H := host)
           (H0 := RotationPolicy.manager) (H1 := locked_history) 1 flux page two_keys _ _ _).
  vm_compute. reflexivity.
Defined.

(** The initial parameters of the LoRA model, and settings loaded over them. *)
Example lora_page_by_example :
  let host := funds [] None in
  let ui := handleLoadSettings (H := host) lora_model lora_schema stored_settings
              (mounted (H := host) lora_model lora_schema) in
  initParameters (H := host) lora_model lora_schema =
    {[ "num_images" := JNum 1; "num_inference_steps" := JNum 40; "seed" := JNull;
       "loras" := JArr [] ]} /\
  prompt ui = "" /\
  parameters ui =
    {[ "num_images" := JNum 4; "num_inference_steps" := JNum 40; "seed" := JNull;
       "style" := JStr "ink"; "loras" := JArr [] ]}.
Proof. vm_compute. repeat split. Qed.

End Coverage.
